(** * Sync: mirroring a MongoDB database into Elasticsearch indices

    A shallow embedding of the [Sync] class of the repository (the snapshot
    loader, the event translator and the change-feed consumer), together with
    the properties its specification states about it.

    The two stores are external to the class.  They are represented by
    - a static description of what the source holds and of which calls fail
      ([Mongo], [Elastic]), shared by everything in the section below, and
    - the contents of the search engine ([es_state]), threaded through the
      code together with the console output and the record of the calls made.

    Strings are sequences of 8-bit characters; [toLowerCase] folds the ASCII
    letters and leaves every other character alone.  Documents are flat
    records of scalar fields. *)

From Stdlib Require Import Ascii String NArith List Bool Lia.
From stdpp Require Import base option list gmap strings pretty.

Open Scope string_scope.
Open Scope list_scope.

(** ** JavaScript values and documents *)

Inductive value :=
| VUndefined
| VNull
| VBool (b : bool)
| VStr (s : string)
| VObjectId (hex : string).

(** A document: its fields, in order. *)
Definition document := list (string * value).

Inductive error :=
| TypeError (msg : string)
| ResponseError (status : nat) (reason : string)
| ConnectionError (msg : string)
| MongoError (msg : string).

Inductive result (A : Type) :=
| Ok (a : A)
| Throw (e : error).
Arguments Ok {A} a.
Arguments Throw {A} e.

Definition truthy (v : value) : bool :=
  match v with
  | VUndefined | VNull => false
  | VBool b => b
  | VStr s => negb (String.eqb s "")
  | VObjectId _ => true
  end.

(** [v.toString()]: a method call, so it throws on [undefined] and [null]. *)
Definition toString (v : value) : result string :=
  match v with
  | VUndefined => Throw (TypeError "Cannot read properties of undefined (reading 'toString')")
  | VNull => Throw (TypeError "Cannot read properties of null (reading 'toString')")
  | VBool true => Ok "true"
  | VBool false => Ok "false"
  | VStr s => Ok s
  | VObjectId hex => Ok hex
  end.

Definition is_string (v : value) : bool :=
  match v with VStr _ => true | _ => false end.

(** [doc[key]] *)
Fixpoint get (key : string) (doc : document) : value :=
  match doc with
  | [] => VUndefined
  | (k, v) :: rest => if String.eqb k key then v else get key rest
  end.

(** [delete doc[key]], and the rest pattern [{key, ...rest}] *)
Definition remove (key : string) (doc : document) : document :=
  filter (fun kv => negb (String.eqb (fst kv) key)) doc.

(** ** Index naming *)

Definition lower_ascii (c : ascii) : ascii :=
  let n := N_of_ascii c in
  if (65 <=? n)%N && (n <=? 90)%N then ascii_of_N (n + 32) else c.

Fixpoint toLowerCase (s : string) : string :=
  match s with
  | EmptyString => EmptyString
  | String c rest => String (lower_ascii c) (toLowerCase rest)
  end.

Definition getPrefix (prefix collName : string) : string :=
  prefix +:+ "__" +:+ toLowerCase collName.



(** ** The configuration of a [Sync] object (the source's [Option]; [tls] only
    matters to the connection and is left out) *)

Module Option.
Record t := mk {
  prefix : string;
  initialSync : bool;
  debug : bool;
}.
End Option.

(** ** What is sent to the search engine *)

(** One element of the array handed to [bulk]. *)
Inductive bulk_line :=
| Action (_index : string) (_id : value)   (* { index: { _index, _id } } *)
| Source (doc : document).

Inductive es_request :=
| EsIndicesDelete (index : string)                              (* ignore_unavailable: true *)
| EsDelete (index : string) (id : value)
| EsUpdate (index : string) (id : value) (doc : option document) (* refresh, doc_as_upsert *)
| EsIndex (index : string) (id : value) (doc : option document)
| EsBulk (body : list bulk_line)                                (* refresh: true *)
| EsCount (index : string).

Record bulk_item := {
  item_operation : string;
  item_status : nat;
  item_error : option string;
}.

Record bulk_response := {
  errors : bool;
  items : list bulk_item;
}.

(** An element of [erroredDocuments]. *)
Record errored_document := {
  status : nat;
  error_cause : option string;
  operation : option bulk_line;
  errored_doc : option bulk_line;
}.

Inductive mongo_request :=
| MongoConnect
| ListCollections
| Find (collName : string)
| Watch.

(** ** Everything observable: console output and calls to the stores *)

Inductive arg :=
| AStr (s : string)
| ADoc (d : option document)
| AErr (e : error)
| AErrored (l : list errored_document).

Inductive output :=
| console_log (args : list arg)
| console_error (args : list arg)
| new_Client
| to_mongo (r : mongo_request)
| to_elastic (r : es_request).

(** ** The environment: what the source holds and which calls fail *)

Record CollectionInfo := {
  name : string;
  type : string;
}.

Record Mongo := {
  mongo_connect : option error;                     (* MongoClient.connect rejects *)
  listCollections : result (list CollectionInfo);
  find : string -> result (list document);
}.

Record Elastic := {
  client_fault : option error;                      (* new Client(...) throws *)
  request_fault : es_request -> option error;       (* the call as a whole fails *)
  item_fault : string -> string -> document -> option (nat * string);
                                                    (* one document of a bulk is refused *)
  generated_id : nat -> string;                     (* ids given to documents sent without one *)
}.

(** ** The contents of the search engine *)

Record es_state := {
  indices : gset string;
  docs : gmap (string * string) document;            (* (index, id) to body *)
  generated : nat;
}.

Definition in_index (i : string) (kv : (string * string) * document) : Prop :=
  kv.1.1 = i.

#[global] Instance in_index_dec i kv : Decision (in_index i kv).
Proof. unfold in_index. apply _. Defined.

(** The id under which the engine files a document: the client writes the
    id into the request path, which turns an object id into its hex string. *)
Definition es_key (id : value) : option string :=
  match toString id with
  | Ok s => Some s
  | Throw _ => None
  end.

(** [update] with [doc] on an existing document: fields of [new] replace
    those of [old], other fields of [old] stay. *)
Definition has_field (key : string) (doc : document) : bool :=
  existsb (fun kv => String.eqb (fst kv) key) doc.

Definition merge (old new : document) : document :=
  map (fun kv => if has_field (fst kv) new then (fst kv, get (fst kv) new) else kv) old
  ++ filter (fun kv => negb (has_field (fst kv) old)) new.

Definition put (i k : string) (d : document) (s : es_state) : es_state :=
  {| indices := {[i]} ∪ indices s;
     docs := <[(i, k) := d]> (docs s);
     generated := generated s |}.

Definition ensure (i : string) (s : es_state) : es_state :=
  {| indices := {[i]} ∪ indices s;
     docs := docs s;
     generated := generated s |}.

Definition missing_id : error := TypeError "Missing required parameter: id".
Definition missing_body : error := ResponseError 400 "parse_exception".
Definition not_found : error := ResponseError 404 "not_found".
Definition index_not_found : error := ResponseError 404 "index_not_found_exception".
Definition malformed_bulk : error := ResponseError 400 "illegal_argument_exception".

Definition has_error (it : bulk_item) : bool :=
  bool_decide (is_Some (item_error it)).

Section Engine.
Variable elastic : Elastic.

Definition exec_indices_delete (i : string) (s : es_state) : result unit * es_state :=
  (Ok tt,
   {| indices := indices s ∖ {[i]};
      docs := filter (fun kv => ¬ in_index i kv) (docs s);
      generated := generated s |}).

Definition exec_delete (i : string) (id : value) (s : es_state) : result unit * es_state :=
  match es_key id with
  | None => (Throw missing_id, s)
  | Some k =>
      match docs s !! (i, k) with
      | Some _ =>
          (Ok tt, {| indices := indices s;
                     docs := delete (i, k) (docs s);
                     generated := generated s |})
      | None => (Throw not_found, s)
      end
  end.

Definition exec_update (i : string) (id : value) (doc : option document) (s : es_state)
  : result unit * es_state :=
  match es_key id, doc with
  | None, _ => (Throw missing_id, s)
  | Some _, None => (Throw missing_body, s)
  | Some k, Some d =>
      match docs s !! (i, k) with
      | Some old => (Ok tt, put i k (merge old d) s)
      | None => (Ok tt, put i k d s)
      end
  end.

Definition exec_index (i : string) (id : value) (doc : option document) (s : es_state)
  : result unit * es_state :=
  match doc with
  | None => (Throw missing_body, s)
  | Some d =>
      match es_key id with
      | Some k => (Ok tt, put i k d s)
      | None =>
          (Ok tt, {| indices := {[i]} ∪ indices s;
                     docs := <[(i, generated_id elastic (generated s)) := d]> (docs s);
                     generated := S (generated s) |})
      end
  end.

(** One action of a bulk: the index is created if need be, then the
    document is filed unless the engine refuses it. *)
Definition bulk_index (i : string) (id : value) (d : document) (s : es_state)
  : bulk_item * es_state :=
  let k := match es_key id with Some k => k | None => generated_id elastic (generated s) end in
  let n := match es_key id with Some _ => generated s | None => S (generated s) end in
  match item_fault elastic i k d with
  | Some (st, cause) =>
      ({| item_operation := "index"; item_status := st; item_error := Some cause |},
       ensure i s)
  | None =>
      ({| item_operation := "index";
          item_status := match docs s !! (i, k) with Some _ => 200 | None => 201 end;
          item_error := None |},
       {| indices := {[i]} ∪ indices s;
          docs := <[(i, k) := d]> (docs s);
          generated := n |})
  end.

Fixpoint bulk_run (body : list bulk_line) (s : es_state) : list bulk_item * es_state :=
  match body with
  | Action i id :: Source d :: rest =>
      let (it, s1) := bulk_index i id d s in
      let (its, s2) := bulk_run rest s1 in
      (it :: its, s2)
  | _ => ([], s)
  end.

Fixpoint well_formed (body : list bulk_line) : bool :=
  match body with
  | [] => true
  | Action _ _ :: Source _ :: rest => well_formed rest
  | _ => false
  end.

Definition exec_bulk (body : list bulk_line) (s : es_state)
  : result bulk_response * es_state :=
  if well_formed body then
    let (its, s1) := bulk_run body s in
    (Ok {| errors := existsb has_error its;
           items := its |}, s1)
  else (Throw malformed_bulk, s).

Definition exec_count (i : string) (s : es_state) : result nat * es_state :=
  if decide (i ∈ indices s)
  then (Ok (size (filter (in_index i) (docs s))), s)
  else (Throw index_not_found, s).
End Engine.

(** ** The state the code runs in *)

Inductive promise_state :=
| Pending
| Resolved
| Rejected (e : error).

Record world := {
  ESclient : bool;                    (* [this.ESclient] is set *)
  db : bool;                          (* [this.db] is set *)
  es : es_state;                      (* what the search engine holds *)
  watcher : option promise_state;     (* the change listener, once registered,
                                         with the promise [initWatcher] returned *)
  out : list output;                  (* oldest first *)
}.

Definition set_ESclient (b : bool) (w : world) : world :=
  {| ESclient := b; db := db w; es := es w; watcher := watcher w; out := out w |}.
Definition set_db (b : bool) (w : world) : world :=
  {| ESclient := ESclient w; db := b; es := es w; watcher := watcher w; out := out w |}.
Definition set_es (s : es_state) (w : world) : world :=
  {| ESclient := ESclient w; db := db w; es := s; watcher := watcher w; out := out w |}.
Definition set_watcher (p : option promise_state) (w : world) : world :=
  {| ESclient := ESclient w; db := db w; es := es w; watcher := p; out := out w |}.
Definition add_out (o : output) (w : world) : world :=
  {| ESclient := ESclient w; db := db w; es := es w; watcher := watcher w;
     out := out w ++ [o] |}.

(** Code that may throw and that changes the world. *)
Definition M (A : Type) : Type := world -> result A * world.

Definition ret {A} (a : A) : M A := fun w => (Ok a, w).
Definition throw {A} (e : error) : M A := fun w => (Throw e, w).
Definition bind {A B} (m : M A) (k : A -> M B) : M B :=
  fun w =>
    match m w with
    | (Ok a, w1) => k a w1
    | (Throw e, w1) => (Throw e, w1)
    end.
Definition try_catch {A} (m : M A) (handler : error -> M A) : M A :=
  fun w =>
    match m w with
    | (Ok a, w1) => (Ok a, w1)
    | (Throw e, w1) => handler e w1
    end.
Definition lift {A} (r : result A) : M A := fun w => (r, w).
Definition emit (o : output) : M unit := fun w => (Ok tt, add_out o w).
Definition when (b : bool) (m : M unit) : M unit := if b then m else ret tt.

Notation "x <- m ;; k" := (bind m (fun x => k))
  (at level 100, m at next level, right associativity).
Notation "m ;; k" := (bind m (fun _ => k))
  (at level 100, right associativity).

Definition nl : string := String (ascii_of_nat 10) "".

Record namespace := {
  ns_db : string;
  coll : option string;
}.

(** A change event, as far as the code looks into it. *)
Record change_event := {
  operationType : string;
  ns : option namespace;
  documentKey : option document;
  fullDocument : option document;
}.

Definition includes (l : list string) (x : string) : bool :=
  existsb (String.eqb x) l.

Definition to_promise (r : result unit) : promise_state :=
  match r with
  | Ok _ => Resolved
  | Throw e => Rejected e
  end.

(** ** The class [Sync]

    [opt] is [this.option]; [mongo] and [elastic] describe the two servers
    the object talks to.  The private methods are only reached through the
    public ones, after both handles are set, and use them without a test. *)

Section Sync.
Variable opt : Option.t.
Variable mongo : Mongo.
Variable elastic : Elastic.

Local Abbreviation debug := (Option.debug opt).

Definition log (s : string) : M unit := emit (console_log [AStr s]).

(** A call of the client: recorded, then it fails as a whole or is
    carried out by the engine. *)
Definition call {A} (r : es_request) (exec : es_state -> result A * es_state) : M A :=
  fun w =>
    let w1 := add_out (to_elastic r) w in
    match request_fault elastic r with
    | Some e => (Throw e, w1)
    | None => let (a, s) := exec (es w1) in (a, set_es s w1)
    end.

Definition initElastic : M unit :=
  try_catch
    (emit new_Client ;;
     lift (match client_fault elastic with Some e => Throw e | None => Ok tt end) ;;
     when debug (log "Debug: Connected to elastic") ;;
     fun w => (Ok tt, set_ESclient true w))
    (fun error =>
       when debug (log "Debug: Failed to connect elastic") ;;
       throw error).

Definition initMongo : M unit :=
  try_catch
    (emit (to_mongo MongoConnect) ;;
     lift (match mongo_connect mongo with Some e => Throw e | None => Ok tt end) ;;
     when debug (log "Debug: Connected to mongodb") ;;
     fun w => (Ok tt, set_db true w))
    (fun error =>
       when debug (log "Debug: Failed to connect mongodb") ;;
       throw error).

Definition dropIndexOnElastic (index : string) : M unit :=
  try_catch
    (call (EsIndicesDelete index) (exec_indices_delete index) ;;
     when debug (log "Debug: Elastic index dropped"))
    (fun error =>
       when debug (log "Debug: Failed to drop index") ;;
       throw error).

Definition deleteDataOnElastic (id : value) (index : string) : M unit :=
  try_catch
    (call (EsDelete index id) (exec_delete index id) ;;
     when debug (log "Debug: Elastic index deleted"))
    (fun error =>
       when debug (log "Debug: Failed to delete index") ;;
       throw error).

Definition updateDataOnElastic (id : value) (index : string) (body : option document)
  : M unit :=
  try_catch
    (call (EsUpdate index id body) (exec_update index id body) ;;
     when debug (log "Debug: Elastic index updated"))
    (fun error =>
       when debug (log "Debug: Failed to update index") ;;
       throw error).

Definition createDataOnElastic (id : value) (index : string) (body : option document)
  : M unit :=
  try_catch
    (call (EsIndex index id body) (exec_index elastic index id body) ;;
     emit (console_log [AStr index; ADoc body]) ;;
     when debug (log "Debug: Elastic index created"))
    (fun error =>
       when debug (log "Debug: Failed to create index") ;;
       throw error).

(** The callback of [body.flatMap]. *)
Definition bulk_lines (index : string) (doc : document) : result (list bulk_line) :=
  let _id := get "_id" doc in
  let rest := remove "_id" doc in
  match toString _id with
  | Ok id => Ok [Action index (VStr id); Source rest]
  | Throw e => Throw e
  end.

Fixpoint flatMap (index : string) (body : list document) : result (list bulk_line) :=
  match body with
  | [] => Ok []
  | doc :: more =>
      match bulk_lines index doc with
      | Throw e => Throw e
      | Ok lines =>
          match flatMap index more with
          | Throw e => Throw e
          | Ok others => Ok (lines ++ others)
          end
      end
  end.

(** The [forEach] over [bulkResponse.items], from position [i] on. *)
Fixpoint erroredDocuments (data : list bulk_line) (items : list bulk_item) (i : nat)
  : list errored_document :=
  match items with
  | [] => []
  | action :: more =>
      match item_error action with
      | Some cause =>
          {| status := item_status action;
             error_cause := Some cause;
             operation := data !! (i * 2);
             errored_doc := data !! (i * 2 + 1) |}
          :: erroredDocuments data more (S i)
      | None => erroredDocuments data more (S i)
      end
  end.

Definition no_data (index : string) : output :=
  console_error [AStr ("Index: " +:+ index +:+ nl +:+ "Error: No data available")].

Definition mismatch (index : string) : output :=
  console_error
    [AStr "The amount of data from the database and from elasticSearch is not the same, for INDEX:";
     AStr index].

Definition counts (read counted : nat) : output :=
  console_log
    [AStr ("Number of documents from the collection db: " +:+ pretty read +:+ nl +:+
           "The number of documents indexed in the elastic: " +:+ pretty counted)].

Definition createBulkDataOnElastic (index : string) (body : list document) : M unit :=
  try_catch
    (when debug (emit (console_log [AStr nl; AStr index])) ;;
     data <- lift (flatMap index body) ;;
     match data with
     | [] => emit (no_data index)
     | _ =>
         bulkResponse <- call (EsBulk data) (exec_bulk elastic data) ;;
         when (errors bulkResponse)
           (emit (console_error
                    [AStr ("Errors in document while bulk: " +:+ nl);
                     AErrored (erroredDocuments data (items bulkResponse) 0)])) ;;
         count <- call (EsCount index) (exec_count index) ;;
         when debug (emit (counts (length body) count)) ;;
         when (negb (Nat.eqb count (length body))) (emit (mismatch index)) ;;
         when debug (log ("Debug: Elastic bulk index created: " +:+ index))
     end)
    (fun error =>
       when debug (log "Debug: Failed to create bulk index") ;;
       throw error).

Definition collectionsName (collectionsArr : list CollectionInfo) : list (option string) :=
  map (fun ele => if String.eqb (type ele) "collection" then Some (name ele) else None)
      collectionsArr.

(** [!collName || (excludedCollections && excludedCollections.includes(collName))] *)
Definition skip (excludedCollections : option (list string)) (collName : option string)
  : bool :=
  match collName with
  | None => true
  | Some c =>
      String.eqb c "" ||
      match excludedCollections with
      | Some l => includes l c
      | None => false
      end
  end.

(** The body of the [for] loop of [initDbSync], over what is left of
    [collectionsName]. *)
Fixpoint initDbSync_loop (excludedCollections : option (list string))
         (collectionsName : list (option string)) : M unit :=
  match collectionsName with
  | [] => ret tt
  | collName :: later =>
      if skip excludedCollections collName then initDbSync_loop excludedCollections later
      else
        match collName with
        | Some c =>
            let index := getPrefix (Option.prefix opt) c in
            allData <- (emit (to_mongo (Find c)) ;; lift (find mongo c)) ;;
            createBulkDataOnElastic index allData ;;
            initDbSync_loop excludedCollections later
        | None => initDbSync_loop excludedCollections later
        end
  end.

Definition initDbSync (excludedCollections : option (list string)) : M unit :=
  try_catch
    (collectionsArr <- (emit (to_mongo ListCollections) ;; lift (listCollections mongo)) ;;
     initDbSync_loop excludedCollections (collectionsName collectionsArr))
    (fun error =>
       when debug (log "Debug: Failed to initial sync mongodb") ;;
       throw error).

Fixpoint dropIndices_loop (excludedCollections : option (list string))
         (collectionsName : list string) : M unit :=
  match collectionsName with
  | [] => ret tt
  | collName :: later =>
      if skip excludedCollections (Some collName)
      then dropIndices_loop excludedCollections later
      else
        dropIndexOnElastic (getPrefix (Option.prefix opt) collName) ;;
        dropIndices_loop excludedCollections later
  end.

Definition dropIndices (collectionsName : list string)
           (excludedCollections : option (list string)) : M unit :=
  try_catch
    (dropIndices_loop excludedCollections collectionsName)
    (fun error =>
       when debug (log "Debug: Failed to drop indices in elastic") ;;
       throw error).

(** [this.getPrefix(this.option.prefix, data.ns.coll)] on an event, which
    may lack [ns] or [ns.coll]. *)
Definition derived_index (data : change_event) : result string :=
  match ns data with
  | None => Throw (TypeError "Cannot read properties of undefined (reading 'coll')")
  | Some n =>
      match coll n with
      | None => Throw (TypeError "Cannot read properties of undefined (reading 'toLowerCase')")
      | Some c => Ok (getPrefix (Option.prefix opt) c)
      end
  end.

Definition unhandled (operationType : string) : output :=
  console_log
    [AStr ("ERROR: mongo-elastic-sync: Unhandled operation " +:+ operationType +:+
           ", log it here: https://github.com/souravj96/mongo-elastic-sync/issues")].

(** [body?._id], then [if (id) delete body._id]. *)
Definition body_id (body : option document) : value :=
  match body with
  | Some b => get "_id" b
  | None => VUndefined
  end.

Definition strip_id (body : option document) : option document :=
  if truthy (body_id body) then option_map (remove "_id") body else body.

Definition generateOperation (data : change_event) : M unit :=
  try_catch
    (index <- lift (derived_index data) ;;
     emit (console_log [AStr (operationType data)]) ;;
     if String.eqb (operationType data) "delete" then
       id <- lift (match documentKey data with
                   | Some key => Ok (get "_id" key)
                   | None =>
                       Throw (TypeError "Cannot read properties of undefined (reading '_id')")
                   end) ;;
       deleteDataOnElastic id index
     else if String.eqb (operationType data) "insert" then
       let body := fullDocument data in
       let id := body_id body in
       createDataOnElastic id index (strip_id body)
     else if String.eqb (operationType data) "update" then
       let body := fullDocument data in
       let id := body_id body in
       emit (console_log [ADoc (strip_id body)]) ;;
       updateDataOnElastic id index (strip_id body)
     else if String.eqb (operationType data) "drop" then
       dropIndexOnElastic index
     else
       emit (unhandled (operationType data)))
    (fun error => throw error).

(** *** The change feed

    [initWatcher] returns a promise and registers a listener; the promise
    is settled from inside the listener.  Events are handled one after
    the other. *)

Definition settle (p : promise_state) : M unit :=
  fun w =>
    match watcher w with
    | Some Pending => (Ok tt, set_watcher (Some p) w)
    | _ => (Ok tt, w)
    end.

Definition resolve : M unit := settle Resolved.
Definition reject (e : error) : M unit := settle (Rejected e).

(** The listener on ["change"]. *)
Definition on_change (data : change_event) (error : option error) : M unit :=
  try_catch
    (match error with Some e => reject e | None => ret tt end ;;
     when debug (log "Debug: Change event triggered") ;;
     generateOperation data ;;
     resolve)
    (fun error =>
       when debug (log "Debug: Error in change event") ;;
       reject error).

(** [this.db.watch(...).on("change", ...)] inside [new Promise]. *)
Definition subscribe : M unit :=
  emit (to_mongo Watch) ;;
  fun w => (Ok tt, set_watcher (Some Pending) w).

(** The feed delivers [feed] to the listener, if there is one. *)
Fixpoint deliver (feed : list change_event) (w : world) : world :=
  match feed with
  | [] => w
  | data :: later =>
      match watcher w with
      | Some _ => deliver later (snd (on_change data None w))
      | None => w
      end
  end.

Definition promise_of (w : world) : promise_state :=
  match watcher w with
  | Some p => p
  | None => Pending
  end.

(** [initWatcher], and the state of the promise it returned once the feed
    has delivered [feed]. *)
Definition initWatcher (feed : list change_event) (w : world) : promise_state * world :=
  let w1 := deliver feed (snd (subscribe w)) in
  (promise_of w1, w1).

(** *** The public methods *)

Definition initialSync (excludedCollections : option (list string)) : M unit :=
  try_catch
    ((fun w => if ESclient w then ret tt w else initElastic w) ;;
     (fun w => if db w then ret tt w else initMongo w) ;;
     when debug (log "Debug: Initial mongodb sync started") ;;
     initDbSync excludedCollections)
    (fun error => if debug then throw error else ret tt).

(** The [catch] shared by [startSync] and [startDropIndices]. *)
Definition report (error : error) : M unit :=
  if debug then throw error else emit (console_log [AErr error]).

(** [startSync] up to the point where it waits for [initWatcher]. *)
Definition startSync_try (excludedCollections : option (list string)) : M unit :=
  (fun w => if ESclient w then ret tt w else initElastic w) ;;
  (fun w => if db w then ret tt w else initMongo w) ;;
  when (Option.initialSync opt) (initialSync excludedCollections) ;;
  subscribe.

(** [startSync], and the state of the promise it returned once the feed
    has delivered [feed]: it goes on when the promise of [initWatcher] is
    settled, which the first event does. *)
Definition startSync (excludedCollections : option (list string))
           (feed : list change_event) (w : world) : promise_state * world :=
  match startSync_try excludedCollections w with
  | (Throw e, w1) =>
      let (r, w2) := report e w1 in
      (to_promise r, deliver feed w2)
  | (Ok _, w1) =>
      match feed with
      | [] => (Pending, w1)
      | data :: later =>
          let w2 := snd (on_change data None w1) in
          let (p, w3) :=
            match promise_of w2 with
            | Pending => (Pending, w2)
            | Resolved => (Resolved, w2)
            | Rejected e => let (r, w3) := report e w2 in (to_promise r, w3)
            end in
          (p, deliver later w3)
      end
  end.

Definition startDropIndices (collectionsName : list string)
           (excludedCollections : option (list string)) : M unit :=
  try_catch
    ((fun w => if ESclient w then ret tt w else initElastic w) ;;
     (fun w => if db w then ret tt w else initMongo w) ;;
     dropIndices collectionsName excludedCollections)
    report.

End Sync.

(** ** A small deployment, for the examples

    A shop database with a collection [Orders] of three documents, a
    collection [pages] that the operator excludes, and a view. *)

Definition healthy : Elastic :=
  {| client_fault := None;
     request_fault := fun _ => None;
     item_fault := fun _ _ _ => None;
     generated_id := fun n => "auto-" +:+ pretty n |}.

Definition cfg : Option.t :=
  {| Option.prefix := "sync"; Option.initialSync := true; Option.debug := false |}.

Definition orders : list document :=
  [ [("_id", VObjectId "o1"); ("status", VStr "new")];
    [("_id", VObjectId "o2"); ("status", VStr "paid")];
    [("_id", VObjectId "o3"); ("status", VStr "new")] ].

Definition pages : list document :=
  [ [("_id", VStr "home"); ("title", VStr "Welcome")] ].

Definition shop : Mongo :=
  {| mongo_connect := None;
     listCollections :=
       Ok [ {| name := "Orders"; type := "collection" |};
            {| name := "pages"; type := "collection" |};
            {| name := "report"; type := "view" |} ];
     find := fun c =>
       if String.eqb c "Orders" then Ok orders
       else if String.eqb c "pages" then Ok pages
       else Throw (MongoError "ns does not exist") |}.

Definition excluded : option (list string) := Some ["pages"].

(** The same shop with a collection listed first that cannot be read. *)
Definition shop_unreadable : Mongo :=
  {| mongo_connect := None;
     listCollections :=
       Ok [ {| name := "Customers"; type := "collection" |};
            {| name := "Orders"; type := "collection" |} ];
     find := fun c =>
       if String.eqb c "Orders" then Ok orders
       else Throw (MongoError "cursor failed") |}.

(** A shop with two readable collections, and an engine whose bulk call
    fails for the first of them. *)
Definition shop_two : Mongo :=
  {| mongo_connect := None;
     listCollections :=
       Ok [ {| name := "Customers"; type := "collection" |};
            {| name := "Orders"; type := "collection" |} ];
     find := fun c =>
       if String.eqb c "Orders" then Ok orders
       else if String.eqb c "Customers" then Ok [ [("_id", VObjectId "c1")] ]
       else Throw (MongoError "ns does not exist") |}.

Definition bulk_unavailable : Elastic :=
  {| client_fault := None;
     request_fault := fun r =>
       match r with
       | EsBulk (Action "sync__customers" _ :: _) => Some (ConnectionError "socket hang up")
       | _ => None
       end;
     item_fault := fun _ _ _ => None;
     generated_id := fun n => "auto-" +:+ pretty n |}.

Definition empty_engine : es_state :=
  {| indices := ∅; docs := ∅; generated := 0 |}.

Definition fresh : world :=
  {| ESclient := false; db := false; es := empty_engine; watcher := None; out := [] |}.

(** An engine that already holds a document in the index of [Orders], and
    a [Sync] object connected to it. *)
Definition stale_engine : es_state :=
  {| indices := {[ "sync__orders" ]};
     docs := {[ ("sync__orders", "o0") := [("status", VStr "lost")] ]};
     generated := 0 |}.

Definition stale : world :=
  {| ESclient := true; db := true; es := stale_engine; watcher := None; out := [] |}.

(** The world once the snapshot of [shop] is loaded. *)
Definition loaded : world := snd (initialSync cfg shop healthy excluded fresh).

Definition in_coll (c : string) : option namespace :=
  Some {| ns_db := "shop"; coll := Some c |}.

Definition delete_o1 : change_event :=
  {| operationType := "delete"; ns := in_coll "Orders";
     documentKey := Some [("_id", VObjectId "o1")]; fullDocument := None |}.

Definition insert_o4 : change_event :=
  {| operationType := "insert"; ns := in_coll "Orders";
     documentKey := Some [("_id", VObjectId "o4")];
     fullDocument := Some [("_id", VObjectId "o4"); ("status", VStr "new")] |}.

Definition insert_page : change_event :=
  {| operationType := "insert"; ns := in_coll "pages";
     documentKey := Some [("_id", VStr "about")];
     fullDocument := Some [("_id", VStr "about"); ("title", VStr "About us")] |}.

Definition update_o1 : change_event :=
  {| operationType := "update"; ns := in_coll "Orders";
     documentKey := Some [("_id", VObjectId "o1")];
     fullDocument := Some [("_id", VObjectId "o1"); ("status", VStr "shipped")] |}.

Definition rename_orders : change_event :=
  {| operationType := "rename"; ns := in_coll "Orders";
     documentKey := None; fullDocument := None |}.

(** What a change stream opened on a database sends when the database is
    dropped: an event whose [ns] names no collection, then one without
    [ns]. *)
Definition dropDatabase : change_event :=
  {| operationType := "dropDatabase"; ns := Some {| ns_db := "shop"; coll := None |};
     documentKey := None; fullDocument := None |}.

Definition invalidate : change_event :=
  {| operationType := "invalidate"; ns := None;
     documentKey := None; fullDocument := None |}.

(** ** The launcher ([docker.ts])

    The checks on the environment, in the order of the file, then the
    [Sync] object it builds.  [readFileSync] stands for the file system
    and answers [None] where reading throws. *)

Record process_env := {
  MONGODB_URL_WITH_REPLICA_SET : option string;
  ELASTIC_URL : option string;
  INDEX_PREFIX : option string;
  IS_DEBUG : option string;
  WITH_INITIAL_SYNC : option string;
  PATH_TO_CERTIFICATE : option string;
  IS_CERTIFICATE_SELF_SIGNED : option string;
}.

(** [Boolean(s)] on a string. *)
Definition Boolean (s : string) : bool := negb (String.eqb s "").

(** [if (!v) throw ...]: the value that passes the test. *)
Definition provided (v : option string) : option string :=
  match v with
  | Some s => if Boolean s then Some s else None
  | None => None
  end.

Record tls_options := {
  ca : string;
  rejectUnauthorized : bool;
}.

Inductive launch :=
| Error (message : string)
| ReadError (path : string)
| new_Sync (mongoURL elasticURL : string) (option : Option.t) (tls : tls_options).

Definition docker (env : process_env) (readFileSync : string -> option string) : launch :=
  match provided (MONGODB_URL_WITH_REPLICA_SET env) with
  | None => Error "MONGODB_URL_WITH_REPLICA_SET is not provided!"
  | Some mongoDBUrl =>
  match provided (ELASTIC_URL env) with
  | None => Error "ELASTIC_URL is not provided!"
  | Some elasticUrl =>
  match provided (INDEX_PREFIX env) with
  | None => Error "INDEX_PREFIX is not provided!"
  | Some prefix =>
  match provided (IS_DEBUG env) with
  | None => Error "IS_DEBUG is not provided!"
  | Some isDebug =>
  match provided (WITH_INITIAL_SYNC env) with
  | None => Error "WITH_INITIAL_SYNC is not provided!"
  | Some withInitialSync =>
  match provided (PATH_TO_CERTIFICATE env) with
  | None => Error "PATH_TO_CERTIFICATE is not provided!"
  | Some pathToCertificate =>
  match provided (IS_CERTIFICATE_SELF_SIGNED env) with
  | None => Error "IS_CERTIFICATE_SELF_SIGNED is not provided!"
  | Some isCertificateSelfSigned =>
  match readFileSync pathToCertificate with
  | None => ReadError pathToCertificate
  | Some certificate =>
      new_Sync mongoDBUrl elasticUrl
        {| Option.prefix := prefix;
           Option.debug := Boolean isDebug;
           Option.initialSync := Boolean withInitialSync |}
        {| ca := certificate;
           rejectUnauthorized := negb (Boolean isCertificateSelfSigned) |}
  end end end end end end end end.

(** The variables the launcher checks, in the order of the checks. *)
Definition variables (env : process_env) : list (option string) :=
  [ MONGODB_URL_WITH_REPLICA_SET env; ELASTIC_URL env; INDEX_PREFIX env; IS_DEBUG env;
    WITH_INITIAL_SYNC env; PATH_TO_CERTIFICATE env; IS_CERTIFICATE_SELF_SIGNED env ].

Definition excludedCollections : list string :=
  ["pages"; "settings"; "root__schemas"; "migrations_changelog"].

(** The whole of [docker.ts]: the object is built, ["Started"] is written,
    and [startSync] is called on it and not waited for.  [engine] is what
    the search engine holds at that moment. *)
Definition docker_main (env : process_env) (readFileSync : string -> option string)
           (mongo : Mongo) (elastic : Elastic) (engine : es_state)
           (feed : list change_event)
  : option (promise_state * world) :=
  match docker env readFileSync with
  | new_Sync _ _ option _ =>
      Some (startSync option mongo elastic (Some excludedCollections) feed
              {| ESclient := false; db := false; es := engine; watcher := None;
                 out := [console_log [AStr "Started"]] |})
  | _ => None
  end.

(** ** More of the deployment *)

Definition image_env : process_env :=
  {| MONGODB_URL_WITH_REPLICA_SET := Some "yourMongoDBUrl";
     ELASTIC_URL := Some "yourElasticURL";
     INDEX_PREFIX := Some "yourPrefix";
     IS_DEBUG := Some "false";
     WITH_INITIAL_SYNC := Some "false";
     PATH_TO_CERTIFICATE := Some "./http_ca.crt";
     IS_CERTIFICATE_SELF_SIGNED := Some "false" |}.

Definition one_certificate (path : string) : option string :=
  if String.eqb path "./http_ca.crt" then Some "-----BEGIN CERTIFICATE-----" else None.

Definition cfg_debug : Option.t :=
  {| Option.prefix := "sync"; Option.initialSync := true; Option.debug := true |}.

(** An engine that refuses the order [o2]. *)
Definition picky : Elastic :=
  {| client_fault := None;
     request_fault := fun _ => None;
     item_fault := fun _ k _ =>
       if String.eqb k "o2" then Some (400, "mapper_parsing_exception") else None;
     generated_id := fun n => "auto-" +:+ pretty n |}.

(** A client that cannot be made. *)
Definition unreachable : Elastic :=
  {| client_fault := Some (ConnectionError "invalid node url");
     request_fault := fun _ => None;
     item_fault := fun _ _ _ => None;
     generated_id := fun n => "auto-" +:+ pretty n |}.

(** An engine that fails to delete the index of [Orders]. *)
Definition drop_unavailable : Elastic :=
  {| client_fault := None;
     request_fault := fun r =>
       match r with
       | EsIndicesDelete "sync__orders" => Some (ResponseError 503 "cluster_block_exception")
       | _ => None
       end;
     item_fault := fun _ _ _ => None;
     generated_id := fun n => "auto-" +:+ pretty n |}.

(** A source whose catalog cannot be listed. *)
Definition shop_down : Mongo :=
  {| mongo_connect := None;
     listCollections := Throw (MongoError "not authorized");
     find := fun _ => Throw (MongoError "not authorized") |}.

Definition delete_o4 : change_event :=
  {| operationType := "delete"; ns := in_coll "Orders";
     documentKey := Some [("_id", VObjectId "o4")]; fullDocument := None |}.

Definition delete_nothing : change_event :=
  {| operationType := "delete"; ns := in_coll "Orders";
     documentKey := None; fullDocument := None |}.

Definition drop_orders : change_event :=
  {| operationType := "drop"; ns := in_coll "Orders";
     documentKey := None; fullDocument := None |}.

(** The world after the first event of the feed. *)
Definition watching : world := snd (initWatcher cfg healthy [insert_o4] loaded).

(** ** Notions used in the statements *)

(** Requests whose explicit document ids are all strings. *)
Definition line_id_is_string (l : bulk_line) : bool :=
  match l with
  | Action _ id => is_string id
  | Source _ => true
  end.

Definition ids_are_strings (r : es_request) : bool :=
  match r with
  | EsDelete _ id | EsUpdate _ id _ | EsIndex _ id _ => is_string id
  | EsBulk body => forallb line_id_is_string body
  | EsIndicesDelete _ | EsCount _ => true
  end.

Definition output_ids_are_strings (o : output) : bool :=
  match o with
  | to_elastic r => ids_are_strings r
  | _ => true
  end.

(** Code that only talks to the search engine and the console: what it
    returns and what it does to the engine are determined by the contents
    of the engine; it leaves the handles and the listener alone, and it
    only adds to the output. *)
Definition store_only {A} (m : M A) : Prop :=
  forall w,
    ESclient (snd (m w)) = ESclient w /\
    db (snd (m w)) = db w /\
    watcher (snd (m w)) = watcher w /\
    (exists l, out (snd (m w)) = out w ++ l) /\
    (forall w', es w = es w' ->
                fst (m w) = fst (m w') /\ es (snd (m w)) = es (snd (m w'))).

(** Code that only adds to the output, and only things that satisfy [P]. *)
Definition emits {A} (P : output -> Prop) (m : M A) : Prop :=
  forall w, exists l, out (snd (m w)) = out w ++ l /\ Forall P l.

Definition not_to_mongo (o : output) : Prop :=
  match o with
  | to_mongo _ => False
  | _ => True
  end.


(** The first two lines of the three public methods. *)
Definition handles (opt : Option.t) (mongo : Mongo) (elastic : Elastic) : M unit :=
  (fun w => if ESclient w then ret tt w else initElastic opt elastic w) ;;
  (fun w => if db w then ret tt w else initMongo opt mongo w).

(** Output that only appears with [debug]. *)
Definition dbg (opt : Option.t) (l : list output) : list output :=
  if Option.debug opt then l else [].

(** Indices [I] and documents [D] laid over what the engine holds. *)
Definition overlay (I : gset string) (D : gmap (string * string) document)
           (s : es_state) : es_state :=
  {| indices := I ∪ indices s; docs := D ∪ docs s; generated := generated s |}.

(** Code whose outcome does not depend on the world it starts in, and whose
    effect on the engine is to lay the same documents over it. *)
Definition overlays (m : M unit) : Prop :=
  exists r I D, forall w, fst (m w) = r /\ es (snd (m w)) = overlay I D (es w).

(** The shape of what the snapshot loader sends to [bulk] for [index]. *)
Inductive snapshot_lines (index : string) : list bulk_line -> Prop :=
| snapshot_nil : snapshot_lines index []
| snapshot_cons id rest others :
    snapshot_lines index others ->
    snapshot_lines index (Action index (VStr id) :: Source rest :: others).

(** What the loader reports for one document that the engine refuses. *)
Definition refused (elastic : Elastic) (index : string) (doc : document)
  : list errored_document :=
  match toString (get "_id" doc) with
  | Ok id =>
      match item_fault elastic index id (remove "_id" doc) with
      | Some (st, cause) =>
          [ {| status := st;
               error_cause := Some cause;
               operation := Some (Action index (VStr id));
               errored_doc := Some (Source (remove "_id" doc)) |} ]
      | None => []
      end
  | Throw _ => []
  end.

(** The names of [collectionsName] that the loops do not skip. *)
Definition kept (excludedCollections : option (list string)) (collectionsName : list string)
  : list string :=
  List.filter (fun c => negb (skip excludedCollections (Some c))) collectionsName.

(** The engine without the indices [gone] and their documents. *)
Definition without (gone : list string) (s : es_state) : es_state :=
  {| indices := indices s ∖ list_to_set gone;
     docs := filter (fun kv : (string * string) * document => kv.1.1 ∉ gone) (docs s);
     generated := generated s |}.

(** Code that leaves the change listener and its promise alone. *)
Definition leaves_listener {A} (m : M A) : Prop :=
  forall w, watcher (snd (m w)) = watcher w.

(** * Properties *)

(** ** Index naming *)



Lemma lower_ascii_idempotent c : lower_ascii (lower_ascii c) = lower_ascii c.
Proof.
  destruct c as [[] [] [] [] [] [] [] []]; reflexivity.
Qed.

Lemma toLowerCase_idempotent s : toLowerCase (toLowerCase s) = toLowerCase s.
Proof.
  induction s as [| c s IH]; simpl; [reflexivity |].
  rewrite lower_ascii_idempotent, IH. reflexivity.
Qed.

Lemma toLowerCase_length s : String.length (toLowerCase s) = String.length s.
Proof. induction s; simpl; congruence. Qed.

Example getPrefix_Users : getPrefix "sync" "Users" = "sync__users".
Proof. reflexivity. Qed.



(** ** Reasoning about code in [M] *)

Lemma bind_assoc {A B C} (m : M A) (k : A -> M B) (k' : B -> M C) w :
  bind (bind m k) k' w = bind m (fun a => bind (k a) k') w.
Proof. unfold bind. by destruct (m w) as [[a | e] w1]. Qed.

Lemma rethrow {A} (m : M A) w : try_catch m (fun error => throw error) w = m w.
Proof. unfold try_catch, throw. by destruct (m w) as [[a | e] w1]. Qed.

Create HintDb store discriminated.
Create HintDb emits discriminated.

Lemma store_only_ret {A} (a : A) : store_only (ret a).
Proof.
  intros w. simpl. repeat split; try done. exists []. by rewrite app_nil_r.
Qed.

Lemma store_only_throw {A} (e : error) : store_only (@throw A e).
Proof.
  intros w. simpl. repeat split; try done. exists []. by rewrite app_nil_r.
Qed.

Lemma store_only_lift {A} (r : result A) : store_only (lift r).
Proof.
  intros w. simpl. repeat split; try done. exists []. by rewrite app_nil_r.
Qed.

Lemma store_only_emit (o : output) : store_only (emit o).
Proof.
  intros w. simpl. repeat split; try done. by exists [o].
Qed.

Lemma store_only_bind {A B} (m : M A) (k : A -> M B) :
  store_only m -> (forall a, store_only (k a)) -> store_only (bind m k).
Proof.
  intros Hm Hk w. unfold bind.
  destruct (Hm w) as (He & Hd & Hw & [l Hl] & Hes).
  destruct (m w) as [[a | e] w1] eqn:Em; simpl in *.
  - destruct (Hk a w1) as (He1 & Hd1 & Hw1 & [l1 Hl1] & Hes1).
    repeat split; try congruence.
    + exists (l ++ l1). rewrite Hl1, Hl. by rewrite app_assoc.
    + destruct (Hes w' H) as [Hr Hs]. destruct (m w') as [r' w1']; simpl in *; subst r'.
      by apply Hes1.
    + destruct (Hes w' H) as [Hr Hs]. destruct (m w') as [r' w1']; simpl in *; subst r'.
      by apply Hes1.
  - repeat split; try done.
    + by exists l.
    + destruct (Hes w' H) as [Hr Hs]. destruct (m w') as [r' w1']; simpl in *; by subst r'.
    + destruct (Hes w' H) as [Hr Hs]. destruct (m w') as [r' w1']; simpl in *; by subst r'.
Qed.

Lemma store_only_try_catch {A} (m : M A) (handler : error -> M A) :
  store_only m -> (forall e, store_only (handler e)) -> store_only (try_catch m handler).
Proof.
  intros Hm Hk w. unfold try_catch.
  destruct (Hm w) as (He & Hd & Hw & [l Hl] & Hes).
  destruct (m w) as [[a | e] w1] eqn:Em; simpl in *.
  - repeat split; try done.
    + by exists l.
    + destruct (Hes w' H) as [Hr Hs]. destruct (m w') as [r' w1']; simpl in *; by subst r'.
    + destruct (Hes w' H) as [Hr Hs]. destruct (m w') as [r' w1']; simpl in *; by subst r'.
  - destruct (Hk e w1) as (He1 & Hd1 & Hw1 & [l1 Hl1] & Hes1).
    repeat split; try congruence.
    + exists (l ++ l1). rewrite Hl1, Hl. by rewrite app_assoc.
    + destruct (Hes w' H) as [Hr Hs]. destruct (m w') as [r' w1']; simpl in *; subst r'.
      by apply Hes1.
    + destruct (Hes w' H) as [Hr Hs]. destruct (m w') as [r' w1']; simpl in *; subst r'.
      by apply Hes1.
Qed.

Lemma store_only_when (b : bool) (m : M unit) : store_only m -> store_only (when b m).
Proof. destruct b; simpl; [done | intros _; apply store_only_ret]. Qed.

Lemma store_only_call {A} (elastic : Elastic) (r : es_request)
      (exec : es_state -> result A * es_state) :
  store_only (call elastic r exec).
Proof.
  intros w. unfold call. simpl.
  destruct (request_fault elastic r); simpl.
  - repeat split; try done. by exists [to_elastic r].
  - destruct (exec (es w)) as [a s] eqn:Ex; simpl.
    repeat split; try done.
    + by exists [to_elastic r].
    + match goal with E : es w = es _ |- _ => by rewrite <- E, Ex end.
    + match goal with E : es w = es _ |- _ => by rewrite <- E, Ex end.
Qed.

Lemma store_only_log s : store_only (log s).
Proof. apply store_only_emit. Qed.

#[export] Hint Resolve store_only_ret store_only_throw store_only_lift store_only_emit
  store_only_when store_only_call store_only_log : store.

Ltac store_only :=
  repeat
    match goal with
    | |- store_only (bind _ _) => apply store_only_bind; [| intros ?]
    | |- store_only (try_catch _ _) => apply store_only_try_catch; [| intros ?]
    | |- store_only (if ?b then _ else _) => destruct b
    | |- store_only (match ?x with _ => _ end) => destruct x
    | |- store_only _ => solve [auto with store]
    end.

Section Emits.
Context {A : Type} (P : output -> Prop).

Lemma emits_ret (a : A) : emits P (ret a).
Proof. intros w. exists []. by rewrite app_nil_r. Qed.

Lemma emits_throw (e : error) : emits P (@throw A e).
Proof. intros w. exists []. by rewrite app_nil_r. Qed.

Lemma emits_lift (r : result A) : emits P (lift r).
Proof. intros w. exists []. by rewrite app_nil_r. Qed.

Lemma emits_try_catch (m : M A) handler :
  emits P m -> (forall e, emits P (handler e)) -> emits P (try_catch m handler).
Proof.
  intros Hm Hh w. unfold try_catch. destruct (Hm w) as (l & Hl & HP).
  destruct (m w) as [[a | e] w1]; simpl in *; [by exists l |].
  destruct (Hh e w1) as (l1 & Hl1 & HP1). exists (l ++ l1).
  rewrite Hl1, Hl, app_assoc. split; [done |]. by apply Forall_app.
Qed.
End Emits.

Lemma emits_bind {A B} P (m : M A) (k : A -> M B) :
  emits P m -> (forall a, emits P (k a)) -> emits P (bind m k).
Proof.
  intros Hm Hk w. unfold bind. destruct (Hm w) as (l & Hl & HP).
  destruct (m w) as [[a | e] w1]; simpl in *; [| by exists l].
  destruct (Hk a w1) as (l1 & Hl1 & HP1). exists (l ++ l1).
  rewrite Hl1, Hl, app_assoc. split; [done |]. by apply Forall_app.
Qed.

(** What follows a [lift] only matters for the value it was given. *)
Lemma emits_bind_lift {A B} P (r : result A) (k : A -> M B) :
  (forall a, r = Ok a -> emits P (k a)) -> emits P (bind (lift r) k).
Proof.
  intros Hk w. unfold bind, lift. destruct r as [a | e]; [by apply Hk |].
  exists []. by rewrite app_nil_r.
Qed.

Lemma emits_emit (P : output -> Prop) o : P o -> emits P (emit o).
Proof. intros Ho w. exists [o]. split; [done |]. by constructor. Qed.

Lemma emits_when P b m : emits P m -> emits P (when b m).
Proof. destruct b; [done |]. intros _. apply emits_ret. Qed.

Lemma emits_call {A} P elastic r (exec : es_state -> result A * es_state) :
  P (to_elastic r) -> emits P (call elastic r exec).
Proof.
  intros Hr w. unfold call. exists [to_elastic r]. split; [| by constructor].
  destruct (request_fault elastic r); [done |]. simpl. by destruct (exec (es w)).
Qed.

#[export] Hint Resolve emits_ret emits_throw emits_lift : emits.

Ltac emits :=
  repeat
    match goal with
    | |- emits _ (bind _ _) => apply emits_bind; [| intros ?]
    | |- emits _ (try_catch _ _) => apply emits_try_catch; [| intros ?]
    | |- emits _ (when _ _) => apply emits_when
    | |- emits _ (emit _) => apply emits_emit
    | |- emits _ (log _) => apply emits_emit
    | |- emits _ (call _ _ _) => apply emits_call
    | |- emits _ (if ?b then _ else _) => destruct b
    | |- emits _ (match ?x with _ => _ end) => destruct x eqn:?
    | |- emits _ _ => solve [auto with emits]
    end.

(** ** The event translator and the change feed *)

Section Translator.
Variable opt : Option.t.
Variable elastic : Elastic.

Lemma store_only_deleteDataOnElastic id index :
  store_only (deleteDataOnElastic opt elastic id index).
Proof. unfold deleteDataOnElastic. store_only. Qed.

Lemma store_only_updateDataOnElastic id index body :
  store_only (updateDataOnElastic opt elastic id index body).
Proof. unfold updateDataOnElastic. store_only. Qed.

Lemma store_only_createDataOnElastic id index body :
  store_only (createDataOnElastic opt elastic id index body).
Proof. unfold createDataOnElastic. store_only. Qed.

Lemma store_only_dropIndexOnElastic index :
  store_only (dropIndexOnElastic opt elastic index).
Proof. unfold dropIndexOnElastic. store_only. Qed.

Hint Resolve store_only_deleteDataOnElastic store_only_updateDataOnElastic
  store_only_createDataOnElastic store_only_dropIndexOnElastic : store.

Lemma store_only_generateOperation data :
  store_only (generateOperation opt elastic data).
Proof. unfold generateOperation. store_only. Qed.

(** The translator never talks to the source. *)
Lemma generateOperation_not_to_mongo data :
  emits not_to_mongo (generateOperation opt elastic data).
Proof.
  unfold generateOperation, deleteDataOnElastic, createDataOnElastic, updateDataOnElastic,
    dropIndexOnElastic.
  emits; done.
Qed.

(** *** Delete events *)

Lemma generateOperation_delete data index key w :
  operationType data = "delete" ->
  derived_index opt data = Ok index ->
  documentKey data = Some key ->
  generateOperation opt elastic data w =
    deleteDataOnElastic opt elastic (get "_id" key) index
                        (add_out (console_log [AStr "delete"]) w).
Proof.
  intros Hop Hi Hk. unfold generateOperation. rewrite rethrow.
  unfold bind, lift, emit. rewrite Hi, Hop, Hk. done.
Qed.

Lemma deleteDataOnElastic_spec id index k w :
  es_key id = Some k ->
  request_fault elastic (EsDelete index id) = None ->
  match docs (es w) !! (index, k) with
  | Some _ =>
      fst (deleteDataOnElastic opt elastic id index w) = Ok tt /\
      es (snd (deleteDataOnElastic opt elastic id index w)) =
        {| indices := indices (es w);
           docs := delete (index, k) (docs (es w));
           generated := generated (es w) |}
  | None =>
      fst (deleteDataOnElastic opt elastic id index w) = Throw not_found /\
      es (snd (deleteDataOnElastic opt elastic id index w)) = es w
  end.
Proof.
  intros Hk Hf.
  unfold deleteDataOnElastic, try_catch, bind, call, exec_delete, when, log, emit, ret, throw.
  rewrite Hf, Hk. simpl.
  destruct (docs (es w) !! (index, k)); simpl; by destruct (Option.debug opt).
Qed.

(** Whatever error the client reports for a delete, [deleteDataOnElastic]
    throws it again. *)
Lemma deleteDataOnElastic_rethrows id index w e :
  fst (call elastic (EsDelete index id) (exec_delete index id) w) = Throw e ->
  fst (deleteDataOnElastic opt elastic id index w) = Throw e.
Proof.
  unfold deleteDataOnElastic, try_catch, bind, when, log, emit, ret, throw.
  destruct (call elastic (EsDelete index id) (exec_delete index id) w) as [[[] | e'] w1];
    simpl; [done |].
  intros [= ->]. by destruct (Option.debug opt).
Qed.

(** C1, as the code has it.  On a delete event the translator asks the
    engine to delete the document filed under the event's id in the index
    derived from the event's collection.  If the document is there it is
    removed and the translator returns; if the engine answers that there
    is no such document, the translator throws that answer and the engine
    is unchanged.  So when the same event is delivered a second time the
    index stays as it was and the translator throws. *)
Theorem generateOperation_delete_not_found data index key k w :
  operationType data = "delete" ->
  derived_index opt data = Ok index ->
  documentKey data = Some key ->
  es_key (get "_id" key) = Some k ->
  request_fault elastic (EsDelete index (get "_id" key)) = None ->
  let first := generateOperation opt elastic data w in
  let second := generateOperation opt elastic data (snd first) in
  (is_Some (docs (es w) !! (index, k)) ->
   fst first = Ok tt /\
   docs (es (snd first)) = delete (index, k) (docs (es w)) /\
   indices (es (snd first)) = indices (es w)) /\
  (docs (es w) !! (index, k) = None ->
   fst first = Throw not_found /\ es (snd first) = es w) /\
  fst second = Throw not_found /\
  es (snd second) = es (snd first).
Proof.
  intros Hop Hi Hkey Hk Hf first second.
  assert (Hgone : docs (es (snd first)) !! (index, k) = None).
  { subst first. rewrite (generateOperation_delete data index key w Hop Hi Hkey).
    pose proof (deleteDataOnElastic_spec (get "_id" key) index k
                  (add_out (console_log [AStr "delete"]) w) Hk Hf) as H.
    simpl in H. destruct (docs (es w) !! (index, k)) eqn:E; destruct H as [_ ->]; simpl.
    - apply lookup_delete_eq.
    - done. }
  split; [| split].
  - intros [d Hd]. subst first.
    rewrite (generateOperation_delete data index key w Hop Hi Hkey).
    pose proof (deleteDataOnElastic_spec (get "_id" key) index k
                  (add_out (console_log [AStr "delete"]) w) Hk Hf) as H.
    simpl in H. rewrite Hd in H. destruct H as [-> ->]. done.
  - intros Hd. subst first.
    rewrite (generateOperation_delete data index key w Hop Hi Hkey).
    pose proof (deleteDataOnElastic_spec (get "_id" key) index k
                  (add_out (console_log [AStr "delete"]) w) Hk Hf) as H.
    simpl in H. rewrite Hd in H. done.
  - subst second.
    rewrite (generateOperation_delete data index key (snd first) Hop Hi Hkey).
    pose proof (deleteDataOnElastic_spec (get "_id" key) index k
                  (add_out (console_log [AStr "delete"]) (snd first)) Hk Hf) as H.
    simpl in H. rewrite Hgone in H. done.
Qed.

(** *** Insert and update events *)

Lemma generateOperation_insert data index w :
  operationType data = "insert" ->
  derived_index opt data = Ok index ->
  generateOperation opt elastic data w =
    createDataOnElastic opt elastic (body_id (fullDocument data)) index
                        (strip_id (fullDocument data))
                        (add_out (console_log [AStr "insert"]) w).
Proof.
  intros Hop Hi. unfold generateOperation. rewrite rethrow.
  unfold bind, lift, emit. rewrite Hi, Hop. done.
Qed.


(** The three helpers hand the id they are given to the client as it is. *)
Lemma helpers_pass_the_id_on id index body w :
  (exists l, out (snd (deleteDataOnElastic opt elastic id index w)) =
             out w ++ to_elastic (EsDelete index id) :: l) /\
  (exists l, out (snd (createDataOnElastic opt elastic id index body w)) =
             out w ++ to_elastic (EsIndex index id body) :: l) /\
  (exists l, out (snd (updateDataOnElastic opt elastic id index body w)) =
             out w ++ to_elastic (EsUpdate index id body) :: l).
Proof.
  unfold deleteDataOnElastic, createDataOnElastic, updateDataOnElastic,
    try_catch, bind, call, when, log, emit, ret, throw.
  repeat split.
  - destruct (request_fault elastic (EsDelete index id)), (Option.debug opt); simpl;
      try destruct (exec_delete index id (es w)) as [[[] | e] s]; simpl;
      repeat (rewrite <- app_assoc; simpl); eauto.
  - destruct (request_fault elastic (EsIndex index id body)), (Option.debug opt); simpl;
      try destruct (exec_index elastic index id body (es w)) as [[[] | e] s]; simpl;
      repeat (rewrite <- app_assoc; simpl); eauto.
  - destruct (request_fault elastic (EsUpdate index id body)), (Option.debug opt); simpl;
      try destruct (exec_update index id body (es w)) as [[[] | e] s]; simpl;
      repeat (rewrite <- app_assoc; simpl); eauto.
Qed.

(** *** Events of other kinds *)

(** An event of a kind the translator does not know, but which names a
    collection, is logged twice (its kind, then the notice) and nothing
    else happens. *)
Lemma generateOperation_unhandled data index w :
  derived_index opt data = Ok index ->
  operationType data <> "delete" ->
  operationType data <> "insert" ->
  operationType data <> "update" ->
  operationType data <> "drop" ->
  generateOperation opt elastic data w =
    (Ok tt, add_out (unhandled (operationType data))
              (add_out (console_log [AStr (operationType data)]) w)).
Proof.
  intros Hi H1 H2 H3 H4. unfold generateOperation. rewrite rethrow.
  unfold bind, lift, emit. rewrite Hi.
  apply String.eqb_neq in H1, H2, H3, H4. by rewrite H1, H2, H3, H4.
Qed.

(** C9 at the two events a database feed sends when the database is
    dropped, neither of which names a collection: the translator throws
    before it looks at the kind of the event, and logs nothing. *)
Theorem generateOperation_throws_without_ns w :
  ~ In (operationType invalidate) ["delete"; "insert"; "update"; "drop"] /\
  ~ In (operationType dropDatabase) ["delete"; "insert"; "update"; "drop"] /\
  generateOperation opt elastic invalidate w =
    (Throw (TypeError "Cannot read properties of undefined (reading 'coll')"), w) /\
  generateOperation opt elastic dropDatabase w =
    (Throw (TypeError "Cannot read properties of undefined (reading 'toLowerCase')"), w).
Proof.
  repeat split; try reflexivity.
  - simpl. intros [H | [H | [H | [H | []]]]]; discriminate.
  - simpl. intros [H | [H | [H | [H | []]]]]; discriminate.
Qed.

(** *** The change feed *)






End Translator.

(** ** The snapshot loader *)

Section Loader.
Variable opt : Option.t.
Variable mongo : Mongo.
Variable elastic : Elastic.

Local Abbreviation loop := (initDbSync_loop opt mongo elastic).

(** *** What is sent to [bulk] *)

Lemma flatMap_snapshot_lines index body data :
  flatMap index body = Ok data -> snapshot_lines index data.
Proof.
  revert data. induction body as [| doc more IH]; intros data; simpl.
  - intros [= <-]. constructor.
  - unfold bulk_lines. destruct (toString (get "_id" doc)) as [id | e]; [| done].
    destruct (flatMap index more) as [others | e]; [| done].
    intros [= <-]. simpl. constructor. by apply IH.
Qed.

Lemma snapshot_lines_well_formed index data :
  snapshot_lines index data -> well_formed data = true.
Proof. induction 1; simpl; done. Qed.

Lemma snapshot_lines_ids index data :
  snapshot_lines index data -> forallb line_id_is_string data = true.
Proof. induction 1; simpl; done. Qed.

(** Every request of the snapshot loader carries string ids only. *)
Lemma createBulkDataOnElastic_ids index body :
  emits (fun o => output_ids_are_strings o = true)
        (createBulkDataOnElastic opt elastic index body).
Proof.
  unfold createBulkDataOnElastic.
  apply emits_try_catch; [| intros ?; emits; done].
  apply emits_bind; [emits; done |]. intros [].
  apply emits_bind_lift. intros data Hf.
  pose proof (snapshot_lines_ids index data (flatMap_snapshot_lines index body data Hf)).
  destruct data; emits; done.
Qed.

Lemma createBulkDataOnElastic_not_to_mongo index body :
  emits not_to_mongo (createBulkDataOnElastic opt elastic index body).
Proof. unfold createBulkDataOnElastic. emits; done. Qed.

(** *** The effect of [bulk] on the engine *)

Lemma overlay_empty s : overlay ∅ ∅ s = s.
Proof.
  destruct s as [I D n]. unfold overlay. simpl. f_equal.
  - by rewrite (left_id_L ∅ (∪)).
  - by rewrite (left_id_L ∅ (∪)).
Qed.

Lemma overlay_overlay I2 D2 I1 D1 s :
  overlay I2 D2 (overlay I1 D1 s) = overlay (I2 ∪ I1) (D2 ∪ D1) s.
Proof.
  unfold overlay. simpl. f_equal.
  - by rewrite (assoc_L (∪)).
  - by rewrite (assoc_L (∪)).
Qed.

Lemma overlay_twice I D s : overlay I D (overlay I D s) = overlay I D s.
Proof.
  rewrite overlay_overlay. f_equal.
  - by rewrite (idemp_L (∪)).
  - by rewrite (idemp_L (∪)).
Qed.

Lemma bulk_index_overlay index id rest :
  exists I D, forall s, snd (bulk_index elastic index (VStr id) rest s) = overlay I D s
                        /\ index ∈ I.
Proof.
  unfold bulk_index. simpl.
  destruct (item_fault elastic index id rest) as [[st cause] |].
  - exists {[index]}, ∅. intros s. split; [| set_solver].
    unfold ensure, overlay. simpl. f_equal. by rewrite (left_id_L ∅ (∪)).
  - exists {[index]}, {[(index, id) := rest]}. intros s. split; [| set_solver].
    unfold overlay. simpl. f_equal. apply insert_union_singleton_l.
Qed.

Lemma bulk_run_overlay index data :
  snapshot_lines index data ->
  exists I D, (forall s, snd (bulk_run elastic data s) = overlay I D s) /\
              (data <> [] -> index ∈ I).
Proof.
  induction 1 as [| id rest others _ IH].
  - exists ∅, ∅. split; [| done]. intros s. simpl. by rewrite overlay_empty.
  - destruct IH as (I & D & IH & _).
    destruct (bulk_index_overlay index id rest) as (I1 & D1 & H1).
    exists (I ∪ I1), (D ∪ D1). split.
    + intros s. simpl. destruct (H1 s) as [Hs _].
      destruct (bulk_index elastic index (VStr id) rest s) as [it s1]. simpl in Hs. subst s1.
      specialize (IH (overlay I1 D1 s)).
      destruct (bulk_run elastic others (overlay I1 D1 s)) as [its s2]. simpl in *.
      by rewrite IH, overlay_overlay.
    + intros _. pose proof (H1 empty_engine) as [Hs0 Hin]. apply elem_of_union. by right.
Qed.

(** After a bulk that is not empty the index exists. *)
Lemma bulk_run_index index data s :
  snapshot_lines index data -> data <> [] ->
  index ∈ indices (snd (bulk_run elastic data s)).
Proof.
  intros Hd Hne. destruct (bulk_run_overlay index data Hd) as (I & D & Hs & Hin).
  rewrite Hs. unfold overlay. simpl. specialize (Hin Hne). set_solver.
Qed.

(** *** One collection *)

(** C8.  When the bulk call and the count call go through,
    [createBulkDataOnElastic] asks the engine for the number of documents
    of the index after the bulk, compares it with the number of documents
    read, writes the warning that names the index exactly when the two
    differ, and returns normally in both cases. *)
Theorem createBulkDataOnElastic_count_check index body data w :
  flatMap index body = Ok data ->
  data <> [] ->
  request_fault elastic (EsBulk data) = None ->
  request_fault elastic (EsCount index) = None ->
  let answer := bulk_run elastic data (es w) in
  let count := size (filter (in_index index) (docs (snd answer))) in
  createBulkDataOnElastic opt elastic index body w =
    (Ok tt,
     {| ESclient := ESclient w; db := db w; es := snd answer; watcher := watcher w;
        out := out w
               ++ dbg opt [console_log [AStr nl; AStr index]]
               ++ [to_elastic (EsBulk data)]
               ++ (if existsb has_error (fst answer)
                   then [console_error
                           [AStr ("Errors in document while bulk: " +:+ nl);
                            AErrored (erroredDocuments data (fst answer) 0)]]
                   else [])
               ++ [to_elastic (EsCount index)]
               ++ dbg opt [counts (length body) count]
               ++ (if Nat.eqb count (length body) then [] else [mismatch index])
               ++ dbg opt [console_log [AStr ("Debug: Elastic bulk index created: " +:+ index)]]
     |}).
Proof.
  intros Hf Hne Hb Hc answer count. subst answer count.
  pose proof (flatMap_snapshot_lines index body data Hf) as Hshape.
  pose proof (snapshot_lines_well_formed index data Hshape) as Hwf.
  pose proof (bulk_run_index index data (es w) Hshape Hne) as Hin.
  unfold createBulkDataOnElastic, try_catch.
  unfold bind at 1. unfold bind at 1. unfold lift. rewrite Hf.
  destruct data as [| l data']; [done |].
  unfold dbg, bind, call, exec_bulk, exec_count, when, log, emit, ret. rewrite Hb, Hc, Hwf.
  destruct w as [cl d s wt o]. cbn [es ESclient db watcher out add_out set_es] in *.
  destruct (Option.debug opt);
    cbn [negb es ESclient db watcher out add_out set_es fst snd app errors items];
    destruct (bulk_run elastic (l :: data') s) as [its s1];
    cbn [negb es ESclient db watcher out add_out set_es fst snd app errors items] in *;
    destruct (existsb has_error its);
    cbn [negb es ESclient db watcher out add_out set_es fst snd app errors items];
    (case_decide; [| done]);
    destruct (Nat.eqb _ _);
    unfold add_out, set_es;
    cbn [negb es ESclient db watcher out fst snd app];
    repeat rewrite <- app_assoc; reflexivity.
Qed.

(** What [createBulkDataOnElastic] returns and does to the engine, in
    all cases. *)
Lemma createBulkDataOnElastic_engine index body w :
  let r := createBulkDataOnElastic opt elastic index body w in
  match flatMap index body with
  | Throw e => fst r = Throw e /\ es (snd r) = es w
  | Ok [] => fst r = Ok tt /\ es (snd r) = es w
  | Ok data =>
      match request_fault elastic (EsBulk data) with
      | Some e => fst r = Throw e /\ es (snd r) = es w
      | None =>
          fst r = match request_fault elastic (EsCount index) with
                  | Some e => Throw e
                  | None => Ok tt
                  end /\
          es (snd r) = snd (bulk_run elastic data (es w))
      end
  end.
Proof.
  intros r. subst r.
  destruct (flatMap index body) as [data | e] eqn:Hf.
  - destruct data as [| l data'] eqn:Hd.
    + unfold createBulkDataOnElastic, try_catch, bind, lift, when, emit, ret. rewrite Hf.
      by destruct (Option.debug opt).
    + rewrite <- Hd in *. assert (Hne : data <> []) by (by rewrite Hd).
      destruct (request_fault elastic (EsBulk data)) as [e |] eqn:Hb.
      * unfold createBulkDataOnElastic, try_catch, bind, call, lift, when, log, emit, ret, throw.
        rewrite Hf. subst data. rewrite Hb. by destruct (Option.debug opt).
      * pose proof (flatMap_snapshot_lines index body data Hf) as Hshape.
        pose proof (snapshot_lines_well_formed index data Hshape) as Hwf.
        pose proof (bulk_run_index index data (es w) Hshape Hne) as Hin.
        unfold createBulkDataOnElastic, try_catch, bind, call, exec_bulk, exec_count, lift,
          when, log, emit, ret, throw.
        rewrite Hf. subst data. rewrite Hb, Hwf.
        destruct (request_fault elastic (EsCount index)) as [e |];
          destruct (Option.debug opt);
          cbn [negb es ESclient db watcher out add_out set_es fst snd app errors items];
          destruct (bulk_run elastic (l :: data') (es w)) as [its s1];
          cbn [negb es ESclient db watcher out add_out set_es fst snd app errors items] in *;
          destruct (existsb _ its);
          cbn [negb es ESclient db watcher out add_out set_es fst snd app errors items];
          try done;
          (case_decide; [| done]);
          destruct (Nat.eqb _ _); done.
  - unfold createBulkDataOnElastic, try_catch, bind, lift, when, log, emit, ret, throw.
    rewrite Hf. by destruct (Option.debug opt).
Qed.

Lemma overlays_createBulkDataOnElastic index body :
  overlays (createBulkDataOnElastic opt elastic index body).
Proof.
  pose proof (createBulkDataOnElastic_engine index body) as H.
  destruct (flatMap index body) as [data | e] eqn:Hf.
  - destruct data as [| l data'] eqn:Hd.
    + exists (Ok tt), ∅, ∅. intros w. rewrite overlay_empty. apply H.
    + rewrite <- Hd in *. clear Hd.
      destruct (request_fault elastic (EsBulk data)) as [e |].
      * exists (Throw e), ∅, ∅. intros w. rewrite overlay_empty.
        specialize (H w). by destruct data.
      * destruct (bulk_run_overlay index data (flatMap_snapshot_lines _ _ _ Hf))
          as (I & D & Hs & _).
        eexists _, I, D. intros w. specialize (H w). rewrite <- Hs.
        destruct data; exact H.
  - exists (Throw e), ∅, ∅. intros w. rewrite overlay_empty. apply H.
Qed.

(** *** The loop over the collections *)

Lemma loop_app ex before later w :
  loop ex (before ++ later) w = bind (loop ex before) (fun _ => loop ex later) w.
Proof.
  revert w. induction before as [| collName before IH]; intros w; [done |].
  simpl. destruct (skip ex collName); [apply IH |].
  destruct collName as [c |]; [| apply IH].
  unfold bind in *. unfold emit, lift. simpl.
  destruct (find mongo c) as [allData | e]; [| done].
  destruct (createBulkDataOnElastic opt elastic _ allData _) as [[[] | e] w2]; [| done].
  apply IH.
Qed.

Lemma loop_stops ex before collName later w w1 e :
  loop ex before w = (Ok tt, w1) ->
  fst (loop ex [collName] w1) = Throw e ->
  loop ex (before ++ collName :: later) w = loop ex [collName] w1.
Proof.
  intros Hb Hc. rewrite loop_app. unfold bind. rewrite Hb.
  change (collName :: later) with ([collName] ++ later).
  rewrite loop_app. unfold bind.
  destruct (loop ex [collName] w1) as [[[] | e'] w2]; [discriminate | done].
Qed.

(** When the step of a collection returns, the loop goes on with the
    next one, whatever was written to the console. *)
Lemma loop_continues ex collName later w w1 :
  loop ex [collName] w = (Ok tt, w1) ->
  loop ex (collName :: later) w = loop ex later w1.
Proof.
  intros H. change (collName :: later) with ([collName] ++ later).
  rewrite loop_app. unfold bind. by rewrite H.
Qed.

(** C2, as the code has it.  When the step of one collection fails (its
    documents cannot be read, or the bulk call fails), the loader stops
    there: [initDbSync] throws that error, and the world it leaves is the
    one the failing step left, whatever collections come later; they are
    neither read nor written. *)
Theorem initDbSync_stops_at_first_failure ex arr before collName later w w1 e :
  listCollections mongo = Ok arr ->
  collectionsName arr = before ++ collName :: later ->
  loop ex before (add_out (to_mongo ListCollections) w) = (Ok tt, w1) ->
  fst (loop ex [collName] w1) = Throw e ->
  initDbSync opt mongo elastic ex w =
    (when (Option.debug opt) (log "Debug: Failed to initial sync mongodb") ;; throw e)
      (snd (loop ex [collName] w1)).
Proof.
  intros Hl Hn Hb Hc.
  unfold initDbSync, try_catch. unfold bind at 1 2. unfold emit, lift. rewrite Hl, Hn.
  rewrite (loop_stops ex before collName later _ w1 e Hb Hc).
  destruct (loop ex [collName] w1) as [[[] | e'] w2]; simpl in *; [discriminate |].
  by inversion Hc.
Qed.

(** The snapshot loader does not read an excluded collection. *)
Lemma initDbSync_loop_skips ex c names :
  skip ex (Some c) = true ->
  emits (fun o => o <> to_mongo (Find c)) (loop ex names).
Proof.
  intros Hc. induction names as [| collName later IH]; simpl; [emits |].
  destruct (skip ex collName) eqn:Hs; [done |].
  destruct collName as [c' |]; [| done].
  assert (c' <> c) by congruence.
  apply emits_bind; [emits; congruence |]. intros allData.
  apply emits_bind; [| done].
  intros w.
  destruct (createBulkDataOnElastic_not_to_mongo (getPrefix (Option.prefix opt) c') allData w)
    as (l & Hl & HP).
  exists l. split; [done |]. eapply Forall_impl; [exact HP |]. by intros [].
Qed.

Lemma initDbSync_skips ex c :
  skip ex (Some c) = true ->
  emits (fun o => o <> to_mongo (Find c)) (initDbSync opt mongo elastic ex).
Proof.
  intros Hc. unfold initDbSync. pose proof (initDbSync_loop_skips ex c) as H.
  emits; done.
Qed.

(** *** Loading twice *)

Lemma overlays_loop ex names : overlays (loop ex names).
Proof.
  induction names as [| collName later (r2 & I2 & D2 & IH)].
  - exists (Ok tt), ∅, ∅. intros w. by rewrite overlay_empty.
  - simpl. destruct (skip ex collName); [by exists r2, I2, D2 |].
    destruct collName as [c |]; [| by exists r2, I2, D2].
    destruct (find mongo c) as [allData | e] eqn:Hfind.
    + destruct (overlays_createBulkDataOnElastic (getPrefix (Option.prefix opt) c) allData)
        as (r1 & I1 & D1 & H1).
      destruct r1 as [[] | e].
      * exists r2, (I2 ∪ I1), (D2 ∪ D1). intros w.
        unfold bind, emit, lift. cbn beta iota.
        destruct (H1 (add_out (to_mongo (Find c)) w)) as [Hr Hs].
        destruct (createBulkDataOnElastic _ _ _ _ _) as [r w1]. simpl in *. subst r.
        destruct (IH w1) as [Hr2 Hs2]. by rewrite Hr2, Hs2, Hs, overlay_overlay.
      * exists (Throw e), I1, D1. intros w.
        unfold bind, emit, lift. cbn beta iota.
        destruct (H1 (add_out (to_mongo (Find c)) w)) as [Hr Hs].
        destruct (createBulkDataOnElastic _ _ _ _ _) as [r w1]. simpl in *. by subst r.
    + exists (Throw e), ∅, ∅. intros w. unfold bind, emit, lift. cbn beta iota.
      by rewrite overlay_empty.
Qed.

Lemma overlays_initDbSync ex : overlays (initDbSync opt mongo elastic ex).
Proof.
  unfold initDbSync.
  destruct (listCollections mongo) as [arr | e] eqn:Hl.
  - destruct (overlays_loop ex (collectionsName arr)) as (r & I & D & H).
    exists r, I, D. intros w.
    unfold try_catch, bind, emit, lift, when, log, throw, ret. cbn beta iota.
    destruct (H (add_out (to_mongo ListCollections) w)) as [Hr Hs].
    destruct (initDbSync_loop _ _ _ _ _ _) as [r' w1]. simpl in *. subst r'.
    destruct r as [[] | e]; [done |]. by destruct (Option.debug opt).
  - exists (Throw e), ∅, ∅. intros w.
    unfold try_catch, bind, emit, lift, when, log, throw, ret. cbn beta iota.
    rewrite overlay_empty. by destruct (Option.debug opt).
Qed.

Lemma overlays_twice m w :
  overlays m ->
  fst (m (snd (m w))) = fst (m w) /\ es (snd (m (snd (m w)))) = es (snd (m w)).
Proof.
  intros (r & I & D & H).
  destruct (H w) as [Hr Hs]. destruct (H (snd (m w))) as [Hr' Hs'].
  split; [congruence |]. by rewrite Hs', Hs, overlay_twice.
Qed.

(** Loading one collection twice leaves the engine as loading it once. *)
Lemma createBulkDataOnElastic_twice index body w :
  let once := createBulkDataOnElastic opt elastic index body w in
  let twice := createBulkDataOnElastic opt elastic index body (snd once) in
  es (snd twice) = es (snd once).
Proof.
  intros once twice.
  by destruct (overlays_twice (createBulkDataOnElastic opt elastic index body) w
                 (overlays_createBulkDataOnElastic index body)).
Qed.

(** C6.  Running the snapshot loader a second time over the same source
    leaves the engine exactly as the first run left it: the same indices
    holding the same documents under the same ids, and no id given out by
    the engine.  The second run also ends the way the first did. *)
Theorem initDbSync_twice ex w :
  let once := initDbSync opt mongo elastic ex w in
  let twice := initDbSync opt mongo elastic ex (snd once) in
  es (snd twice) = es (snd once) /\ fst twice = fst once.
Proof.
  intros once twice.
  destruct (overlays_twice (initDbSync opt mongo elastic ex) w (overlays_initDbSync ex)).
  done.
Qed.
End Loader.

(** ** The public methods *)

Section Orchestrator.
Variable opt : Option.t.
Variable mongo : Mongo.
Variable elastic : Elastic.

Lemma handles_set w :
  fst (handles opt mongo elastic w) = Ok tt ->
  ESclient (snd (handles opt mongo elastic w)) = true /\
  db (snd (handles opt mongo elastic w)) = true.
Proof.
  unfold handles, initElastic, initMongo, bind, try_catch, when, log, emit, lift, ret, throw.
  destruct (ESclient w) eqn:E, (db w) eqn:D; simpl; rewrite ?E, ?D; simpl.
  - done.
  - destruct (mongo_connect mongo), (Option.debug opt); simpl; rewrite ?E; done.
  - destruct (client_fault elastic), (Option.debug opt); simpl; rewrite ?D; done.
  - destruct (client_fault elastic), (Option.debug opt); simpl; rewrite ?D; simpl; try done.
    all: destruct (mongo_connect mongo); simpl; done.
Qed.

Lemma startSync_try_handles ex w :
  startSync_try opt mongo elastic ex w =
    (handles opt mongo elastic ;;
     when (Option.initialSync opt) (initialSync opt mongo elastic ex) ;;
     subscribe) w.
Proof. unfold startSync_try, handles. by rewrite bind_assoc. Qed.

(** Without [debug], [initialSync] returns normally whatever happens. *)
Lemma initialSync_quiet ex w :
  Option.debug opt = false ->
  fst (initialSync opt mongo elastic ex w) = Ok tt.
Proof.
  intros Hd. unfold initialSync, try_catch. rewrite Hd.
  by destruct (bind _ _ w) as [[[] | e] w1].
Qed.

(** Without [debug], the promise of [startSync] is never rejected. *)
Lemma startSync_quiet ex feed w e :
  Option.debug opt = false ->
  fst (startSync opt mongo elastic ex feed w) <> Rejected e.
Proof.
  intros Hd. unfold startSync, report, emit. rewrite Hd.
  destruct (startSync_try opt mongo elastic ex w) as [[[] | e0] w1]; simpl; [| done].
  destruct feed as [| data later]; simpl; [done |].
  by destruct (promise_of (on_change opt elastic data None w1).2).
Qed.

(** C10.  Without [debug] and with [initialSync], a failure of the
    snapshot is swallowed by [initialSync], which returns normally;
    [startSync] goes on to register the change listener and waits, and
    whatever the feed then delivers, the promise [startSync] returned is
    never rejected. *)
Theorem startSync_swallows_snapshot_failure ex w e :
  Option.debug opt = false ->
  Option.initialSync opt = true ->
  fst (handles opt mongo elastic w) = Ok tt ->
  fst (initDbSync opt mongo elastic ex (snd (handles opt mongo elastic w))) = Throw e ->
  let w1 := snd (initDbSync opt mongo elastic ex (snd (handles opt mongo elastic w))) in
  initialSync opt mongo elastic ex (snd (handles opt mongo elastic w)) = (Ok tt, w1) /\
  startSync_try opt mongo elastic ex w = (Ok tt, snd (subscribe w1)) /\
  startSync opt mongo elastic ex [] w = (Pending, snd (subscribe w1)) /\
  watcher (snd (subscribe w1)) = Some Pending /\
  forall feed e', fst (startSync opt mongo elastic ex feed w) <> Rejected e'.
Proof.
  intros Hd Hi Hh Hs w1.
  destruct (handles_set w Hh) as [He Hdb].
  assert (Hinit : initialSync opt mongo elastic ex (snd (handles opt mongo elastic w))
                  = (Ok tt, w1)).
  { unfold initialSync, try_catch, bind, when, ret. rewrite He, Hdb, Hd. simpl.
    subst w1. destruct (initDbSync opt mongo elastic ex _) as [r w']; simpl in *.
    by subst r. }
  assert (Htry : startSync_try opt mongo elastic ex w = (Ok tt, snd (subscribe w1))).
  { rewrite startSync_try_handles. unfold bind at 1.
    destruct (handles opt mongo elastic w) as [r wh]; simpl in *. subst r.
    rewrite Hi. unfold bind, when. rewrite Hinit. done. }
  repeat split; try done.
  - unfold startSync. by rewrite Htry.
  - intros feed e'. by apply startSync_quiet.
Qed.
End Orchestrator.

(** ** The deployment at work *)

(** The snapshot of the shop: three orders under their ids as strings, the
    [_id] field gone from the bodies, nothing for [pages] or the view. *)
Example snapshot_of_the_shop :
  es loaded =
    {| indices := {[ "sync__orders" ]};
       docs := {[ ("sync__orders", "o1") := [("status", VStr "new")];
                  ("sync__orders", "o2") := [("status", VStr "paid")];
                  ("sync__orders", "o3") := [("status", VStr "new")] ]};
       generated := 0 |} /\
  out loaded =
    [ new_Client; to_mongo MongoConnect; to_mongo ListCollections;
      to_mongo (Find "Orders");
      to_elastic (EsBulk [ Action "sync__orders" (VStr "o1"); Source [("status", VStr "new")];
                           Action "sync__orders" (VStr "o2"); Source [("status", VStr "paid")];
                           Action "sync__orders" (VStr "o3"); Source [("status", VStr "new")] ]);
      to_elastic (EsCount "sync__orders") ].
Proof. split; vm_compute; reflexivity. Qed.

Example snapshot_twice :
  es (snd (initDbSync cfg shop healthy excluded loaded)) = es loaded.
Proof. vm_compute. reflexivity. Qed.

(** C1 fails as stated: the first delivery of the delete returns, the
    second one throws. *)
Lemma second_delete_throws :
  let first := generateOperation cfg healthy delete_o1 loaded in
  fst first = Ok tt /\
  fst (generateOperation cfg healthy delete_o1 (snd first)) = Throw not_found.
Proof. vm_compute. done. Qed.

Lemma generateOperation_delete_not_found_witness :
  let first := generateOperation cfg healthy delete_o1 loaded in
  let second := generateOperation cfg healthy delete_o1 (snd first) in
  (is_Some (docs (es loaded) !! ("sync__orders", "o1")) ->
   fst first = Ok tt /\
   docs (es (snd first)) = delete ("sync__orders", "o1") (docs (es loaded)) /\
   indices (es (snd first)) = indices (es loaded)) /\
  (docs (es loaded) !! ("sync__orders", "o1") = None ->
   fst first = Throw not_found /\ es (snd first) = es loaded) /\
  fst second = Throw not_found /\
  es (snd second) = es (snd first).
Proof.
  apply (generateOperation_delete_not_found cfg healthy delete_o1 "sync__orders"
           [("_id", VObjectId "o1")] "o1" loaded); reflexivity.
Defined.

(** C2 fails as stated: [Orders] comes after a collection whose bulk call
    fails, or whose documents cannot be read, and is never read. *)
Lemma later_collection_not_synced :
  initDbSync cfg shop_two bulk_unavailable None fresh =
    (Throw (ConnectionError "socket hang up"),
     {| ESclient := false; db := false; es := empty_engine; watcher := None;
        out := [ to_mongo ListCollections;
                 to_mongo (Find "Customers");
                 to_elastic (EsBulk [Action "sync__customers" (VStr "c1"); Source []]) ] |}) /\
  initDbSync cfg shop_unreadable healthy None fresh =
    (Throw (MongoError "cursor failed"),
     {| ESclient := false; db := false; es := empty_engine; watcher := None;
        out := [ to_mongo ListCollections; to_mongo (Find "Customers") ] |}).
Proof. split; reflexivity. Qed.

Lemma initDbSync_stops_at_first_failure_witness :
  initDbSync cfg shop_two bulk_unavailable None fresh =
    (when (Option.debug cfg) (log "Debug: Failed to initial sync mongodb") ;;
     throw (ConnectionError "socket hang up"))
      (snd (initDbSync_loop cfg shop_two bulk_unavailable None [Some "Customers"]
              (add_out (to_mongo ListCollections) fresh))).
Proof.
  apply (initDbSync_stops_at_first_failure cfg shop_two bulk_unavailable None
           [ {| name := "Customers"; type := "collection" |};
             {| name := "Orders"; type := "collection" |} ]
           [] (Some "Customers") [Some "Orders"] fresh
           (add_out (to_mongo ListCollections) fresh)
           (ConnectionError "socket hang up")); reflexivity.
Defined.

(** C3 at a change in an excluded collection: [pages] is excluded, the
    snapshot leaves it alone, and the insert the feed reports for it is
    written to its index all the same. *)
Theorem excluded_collection_is_mirrored :
  let final := snd (startSync cfg shop healthy excluded [insert_page] fresh) in
  skip excluded (Some "pages") = true /\
  bool_decide ("sync__pages" ∈ indices (es loaded)) = false /\
  bool_decide ("sync__pages" ∈ indices (es final)) = true /\
  docs (es final) !! ("sync__pages", "about") = Some [("title", VStr "About us")] /\
  last (out final) =
    Some (console_log [AStr "sync__pages"; ADoc (Some [("title", VStr "About us")])]).
Proof. vm_compute. done. Qed.

(** C4 at the three kinds of events that carry an id: the id goes to the
    engine as the source has it, here an object id, not as a string. *)
Theorem event_ids_are_not_normalized :
  out (snd (generateOperation cfg healthy delete_o1 loaded)) =
    out loaded ++
    [ console_log [AStr "delete"];
      to_elastic (EsDelete "sync__orders" (VObjectId "o1")) ] /\
  out (snd (generateOperation cfg healthy insert_o4 loaded)) =
    out loaded ++
    [ console_log [AStr "insert"];
      to_elastic (EsIndex "sync__orders" (VObjectId "o4") (Some [("status", VStr "new")]));
      console_log [AStr "sync__orders"; ADoc (Some [("status", VStr "new")])] ] /\
  out (snd (generateOperation cfg healthy update_o1 loaded)) =
    out loaded ++
    [ console_log [AStr "update"];
      console_log [ADoc (Some [("status", VStr "shipped")])];
      to_elastic (EsUpdate "sync__orders" (VObjectId "o1") (Some [("status", VStr "shipped")])) ] /\
  ids_are_strings (EsDelete "sync__orders" (VObjectId "o1")) = false /\
  ids_are_strings (EsIndex "sync__orders" (VObjectId "o4") (Some [("status", VStr "new")]))
    = false /\
  ids_are_strings (EsUpdate "sync__orders" (VObjectId "o1") (Some [("status", VStr "shipped")]))
    = false.
Proof. vm_compute. done. Qed.


(** An index that already held a document: the count is four for three
    documents read, the warning is written, the call returns. *)
Lemma createBulkDataOnElastic_count_check_witness :
  createBulkDataOnElastic cfg healthy "sync__orders" orders stale =
    (Ok tt,
     {| ESclient := true; db := true;
        es := {| indices := {[ "sync__orders" ]};
                 docs := {[ ("sync__orders", "o0") := [("status", VStr "lost")];
                            ("sync__orders", "o1") := [("status", VStr "new")];
                            ("sync__orders", "o2") := [("status", VStr "paid")];
                            ("sync__orders", "o3") := [("status", VStr "new")] ]};
                 generated := 0 |};
        watcher := None;
        out := [ to_elastic
                   (EsBulk [ Action "sync__orders" (VStr "o1"); Source [("status", VStr "new")];
                             Action "sync__orders" (VStr "o2"); Source [("status", VStr "paid")];
                             Action "sync__orders" (VStr "o3"); Source [("status", VStr "new")] ]);
                 to_elastic (EsCount "sync__orders");
                 mismatch "sync__orders" ] |}).
Proof.
  exact (createBulkDataOnElastic_count_check cfg healthy "sync__orders" orders
           [ Action "sync__orders" (VStr "o1"); Source [("status", VStr "new")];
             Action "sync__orders" (VStr "o2"); Source [("status", VStr "paid")];
             Action "sync__orders" (VStr "o3"); Source [("status", VStr "new")] ]
           stale eq_refl ltac:(discriminate) eq_refl eq_refl).
Defined.

(** An event of an unknown kind that names a collection: two lines on the
    console, the engine untouched. *)
Example rename_is_logged :
  generateOperation cfg healthy rename_orders loaded =
    (Ok tt,
     add_out (unhandled "rename") (add_out (console_log [AStr "rename"]) loaded)).
Proof. by apply generateOperation_unhandled with (index := "sync__orders"). Qed.

Lemma startSync_swallows_snapshot_failure_witness :
  let w1 := snd (initDbSync cfg shop_unreadable healthy excluded
                   (snd (handles cfg shop_unreadable healthy fresh))) in
  initialSync cfg shop_unreadable healthy excluded
    (snd (handles cfg shop_unreadable healthy fresh)) = (Ok tt, w1) /\
  startSync_try cfg shop_unreadable healthy excluded fresh = (Ok tt, snd (subscribe w1)) /\
  startSync cfg shop_unreadable healthy excluded [] fresh = (Pending, snd (subscribe w1)) /\
  watcher (snd (subscribe w1)) = Some Pending /\
  forall feed e', fst (startSync cfg shop_unreadable healthy excluded feed fresh) <> Rejected e'.
Proof.
  apply (startSync_swallows_snapshot_failure cfg shop_unreadable healthy excluded fresh
           (MongoError "cursor failed")); reflexivity.
Defined.

(** * Further properties *)

(** ** Documents and the engine *)

Lemma remove_cons key k v rest :
  remove key ((k, v) :: rest) =
    if String.eqb k key then remove key rest else (k, v) :: remove key rest.
Proof.
  unfold remove, document. rewrite filter_cons. simpl.
  destruct (String.eqb k key); by case_decide.
Qed.


Lemma get_remove_ne key other doc :
  other <> key -> get other (remove key doc) = get other doc.
Proof.
  intros Hne. induction doc as [| [k v] rest IH]; [done |].
  rewrite remove_cons. destruct (String.eqb k key) eqn:E; simpl.
  - apply String.eqb_eq in E. subst k.
    destruct (String.eqb key other) eqn:E'; [| done].
    apply String.eqb_eq in E'. congruence.
  - by rewrite IH.
Qed.




Lemma strip_id_truthy b :
  truthy (get "_id" b) = true -> strip_id (Some b) = Some (remove "_id" b).
Proof. unfold strip_id, body_id. by intros ->. Qed.

Section TranslatorMore.
Variable opt : Option.t.
Variable elastic : Elastic.

Lemma createDataOnElastic_spec id index d k w :
  es_key id = Some k ->
  request_fault elastic (EsIndex index id (Some d)) = None ->
  fst (createDataOnElastic opt elastic id index (Some d) w) = Ok tt /\
  es (snd (createDataOnElastic opt elastic id index (Some d) w)) = put index k d (es w).
Proof.
  intros Hk Hf.
  unfold createDataOnElastic, try_catch, bind, call, exec_index, when, log, emit, ret, throw.
  rewrite Hf, Hk. simpl. by destruct (Option.debug opt).
Qed.


Lemma dropIndexOnElastic_spec index w :
  request_fault elastic (EsIndicesDelete index) = None ->
  fst (dropIndexOnElastic opt elastic index w) = Ok tt /\
  es (snd (dropIndexOnElastic opt elastic index w)) = snd (exec_indices_delete index (es w)) /\
  out (snd (dropIndexOnElastic opt elastic index w)) =
    out w ++ to_elastic (EsIndicesDelete index)
          :: dbg opt [console_log [AStr "Debug: Elastic index dropped"]].
Proof.
  intros Hf.
  unfold dropIndexOnElastic, try_catch, bind, call, exec_indices_delete, when, log, emit, ret,
    throw, dbg.
  rewrite Hf. simpl. destruct (Option.debug opt); simpl; [| done].
  by rewrite <- app_assoc.
Qed.

End TranslatorMore.

(** *** Merging *)







Section TranslatorMore2.
Variable opt : Option.t.
Variable elastic : Elastic.


(** X3.  A delete event that carries no document key, or a key without a
    usable [_id], makes the translator throw and removes nothing. *)
Theorem delete_event_without_id data index w :
  operationType data = "delete" ->
  derived_index opt data = Ok index ->
  (documentKey data = None \/
   (exists key, documentKey data = Some key /\ es_key (get "_id" key) = None)) ->
  (exists e, fst (generateOperation opt elastic data w) = Throw e) /\
  es (snd (generateOperation opt elastic data w)) = es w.
Proof.
  intros Hop Hi [Hk | (key & Hk & Hid)].
  - unfold generateOperation. rewrite rethrow. unfold bind, lift, emit.
    rewrite Hi, Hop, Hk. simpl. eauto.
  - rewrite (generateOperation_delete opt elastic data index key w Hop Hi Hk).
    unfold deleteDataOnElastic, try_catch, bind, call, exec_delete, when, log, emit, ret, throw.
    rewrite Hid. simpl.
    destruct (request_fault elastic (EsDelete index (get "_id" key))), (Option.debug opt);
      simpl; eauto.
Qed.

(** X4.  An insert event followed by the delete event of the same document:
    both go through, and the index holds what it held before, without the
    document. *)
Theorem insert_then_delete ins del index b key k w :
  operationType ins = "insert" ->
  derived_index opt ins = Ok index ->
  fullDocument ins = Some b ->
  truthy (get "_id" b) = true ->
  toString (get "_id" b) = Ok k ->
  operationType del = "delete" ->
  derived_index opt del = Ok index ->
  documentKey del = Some key ->
  get "_id" key = get "_id" b ->
  request_fault elastic (EsIndex index (get "_id" b) (Some (remove "_id" b))) = None ->
  request_fault elastic (EsDelete index (get "_id" b)) = None ->
  let inserted := generateOperation opt elastic ins w in
  let deleted := generateOperation opt elastic del (snd inserted) in
  fst inserted = Ok tt /\
  fst deleted = Ok tt /\
  docs (es (snd deleted)) = delete (index, k) (docs (es w)).
Proof.
  intros Hop Hi Hb Ht Hs Hop' Hi' Hkey Hid Hf Hf' inserted deleted.
  assert (Hk : es_key (get "_id" b) = Some k) by (unfold es_key; by rewrite Hs).
  assert (H1 : fst inserted = Ok tt /\
               es (snd inserted) = put index k (remove "_id" b) (es w)).
  { subst inserted. rewrite (generateOperation_insert opt elastic ins index w Hop Hi).
    rewrite Hb, (strip_id_truthy b Ht). simpl.
    exact (createDataOnElastic_spec opt elastic _ index _ k
             (add_out (console_log [AStr "insert"]) w) Hk Hf). }
  destruct H1 as [Hr1 He1]. split; [done |].
  subst deleted.
  rewrite (generateOperation_delete opt elastic del index key _ Hop' Hi' Hkey).
  rewrite Hid.
  pose proof (deleteDataOnElastic_spec opt elastic (get "_id" b) index k
                (add_out (console_log [AStr "delete"]) (snd inserted)) Hk Hf') as H.
  simpl in H. rewrite He1 in H. simpl in H. rewrite lookup_insert_eq in H.
  destruct H as [-> ->]. simpl. split; [done |]. apply delete_insert_eq.
Qed.

(** X5.  A drop event deletes the index of the collection with all its
    documents and nothing else; when the index is not there the event goes
    through all the same, so delivering it again changes nothing. *)
Theorem drop_event_redelivery data index w :
  operationType data = "drop" ->
  derived_index opt data = Ok index ->
  request_fault elastic (EsIndicesDelete index) = None ->
  let first := generateOperation opt elastic data w in
  let second := generateOperation opt elastic data (snd first) in
  fst first = Ok tt /\
  (index ∉ indices (es (snd first))) /\
  (forall i, i <> index -> (i ∈ indices (es (snd first)) <-> i ∈ indices (es w))) /\
  (forall i k, docs (es (snd first)) !! (i, k) =
               if decide (i = index) then None else docs (es w) !! (i, k)) /\
  fst second = Ok tt /\
  es (snd second) = es (snd first).
Proof.
  intros Hop Hi Hf first second.
  assert (Hgen : forall w0, generateOperation opt elastic data w0 =
                            dropIndexOnElastic opt elastic index
                              (add_out (console_log [AStr "drop"]) w0)).
  { intros w0. unfold generateOperation. rewrite rethrow. unfold bind, lift, emit.
    rewrite Hi, Hop. done. }
  subst first second. rewrite !Hgen.
  destruct (dropIndexOnElastic_spec opt elastic index
              (add_out (console_log [AStr "drop"]) w) Hf) as (Hr1 & He1 & _).
  destruct (dropIndexOnElastic_spec opt elastic index
              (add_out (console_log [AStr "drop"])
                 (snd (dropIndexOnElastic opt elastic index
                         (add_out (console_log [AStr "drop"]) w)))) Hf) as (Hr2 & He2 & _).
  simpl in *. rewrite He2, He1. simpl.
  repeat split; try done.
  - rewrite elem_of_difference, elem_of_singleton. tauto.
  - rewrite elem_of_difference. tauto.
  - rewrite elem_of_difference, elem_of_singleton. tauto.
  - intros i k. case_decide as Hd.
    + subst i. apply map_lookup_filter_None. right. intros d _ Hn. by apply Hn.
    + destruct (docs (es w) !! (i, k)) as [d |] eqn:E.
      * apply map_lookup_filter_Some. split; [done |]. unfold in_index. simpl. congruence.
      * apply map_lookup_filter_None. by left.
  - f_equal.
    + apply set_eq. intros i. rewrite !elem_of_difference. tauto.
    + apply map_filter_id. intros [i k] d Hl.
      apply map_lookup_filter_Some in Hl. by destruct Hl.
Qed.
End TranslatorMore2.

Section LoaderMore.
Variable opt : Option.t.
Variable mongo : Mongo.
Variable elastic : Elastic.

(** X6.  For a document with a truthy [_id] that the engine accepts, the
    snapshot loader and an insert event leave the same thing in the engine:
    the document without [_id], under the string form of the id. *)
Theorem snapshot_agrees_with_insert data index b k w :
  operationType data = "insert" ->
  derived_index opt data = Ok index ->
  fullDocument data = Some b ->
  truthy (get "_id" b) = true ->
  toString (get "_id" b) = Ok k ->
  request_fault elastic (EsIndex index (get "_id" b) (Some (remove "_id" b))) = None ->
  request_fault elastic (EsBulk [Action index (VStr k); Source (remove "_id" b)]) = None ->
  item_fault elastic index k (remove "_id" b) = None ->
  es (snd (createBulkDataOnElastic opt elastic index [b] w)) =
    es (snd (generateOperation opt elastic data w)).
Proof.
  intros Hop Hi Hb Ht Hs Hf Hbulk Hitem.
  assert (Hk : es_key (get "_id" b) = Some k) by (unfold es_key; by rewrite Hs).
  rewrite (generateOperation_insert opt elastic data index w Hop Hi).
  rewrite Hb, (strip_id_truthy b Ht). cbn [body_id].
  destruct (createDataOnElastic_spec opt elastic _ index _ k
              (add_out (console_log [AStr "insert"]) w) Hk Hf) as [_ ->].
  pose proof (createBulkDataOnElastic_engine opt elastic index [b] w) as H.
  simpl in H. unfold bulk_lines in H. rewrite Hs in H. simpl in H.
  rewrite Hbulk in H. destruct H as [_ ->].
  unfold bulk_index. simpl. rewrite Hitem. done.
Qed.

(** X7.  An empty collection: nothing is sent to the engine, the console
    gets the no-data line, and the call returns. *)
Theorem createBulkDataOnElastic_empty index w :
  createBulkDataOnElastic opt elastic index [] w =
    (Ok tt,
     {| ESclient := ESclient w; db := db w; es := es w; watcher := watcher w;
        out := out w ++ dbg opt [console_log [AStr nl; AStr index]] ++ [no_data index] |}).
Proof.
  unfold createBulkDataOnElastic, try_catch, bind, lift, when, emit, ret, dbg.
  destruct w. by destruct (Option.debug opt); simpl; unfold add_out; simpl;
    rewrite <- ?app_assoc.
Qed.

Lemma flatMap_throws index body doc :
  In doc body ->
  get "_id" doc = VUndefined \/ get "_id" doc = VNull ->
  exists msg, flatMap index body = Throw (TypeError msg).
Proof.
  intros Hin Hid. induction body as [| d more IH]; [done |].
  simpl. unfold bulk_lines.
  destruct (toString (get "_id" d)) as [id |] eqn:Hd.
  - destruct Hin as [-> | Hin]; [by destruct Hid as [H | H]; rewrite H in Hd |].
    destruct (IH Hin) as [msg ->]. eauto.
  - destruct (get "_id" d) as [| | [] | |]; simpl in Hd; try done; injection Hd as <-; eauto.
Qed.

(** X8.  A collection with a document whose [_id] is missing or null: the
    loader throws a [TypeError] while it builds the bulk body, before
    anything is sent to the engine. *)
Theorem createBulkDataOnElastic_missing_id index body doc w :
  In doc body ->
  get "_id" doc = VUndefined \/ get "_id" doc = VNull ->
  exists msg,
    createBulkDataOnElastic opt elastic index body w =
      (Throw (TypeError msg),
       {| ESclient := ESclient w; db := db w; es := es w; watcher := watcher w;
          out := out w ++ dbg opt [console_log [AStr nl; AStr index]]
                       ++ dbg opt [console_log [AStr "Debug: Failed to create bulk index"]] |}).
Proof.
  intros Hin Hid. destruct (flatMap_throws index body doc Hin Hid) as [msg Hf].
  exists msg.
  unfold createBulkDataOnElastic, try_catch, bind, lift, when, log, emit, ret, throw, dbg.
  rewrite Hf. destruct w. destruct (Option.debug opt); simpl; unfold add_out; simpl;
    rewrite <- ?app_assoc, ?app_nil_r; done.
Qed.
End LoaderMore.

Section Errored.
Variable elastic : Elastic.

Lemma erroredDocuments_at (before : list bulk_line) index body data s i :
  length before = i * 2 ->
  flatMap index body = Ok data ->
  erroredDocuments (before ++ data) (fst (bulk_run elastic data s)) i =
    flat_map (refused elastic index) body.
Proof.
  revert before data s i. induction body as [| doc more IH]; intros before data s i Hlen.
  - simpl. by intros [= <-].
  - simpl. unfold bulk_lines, refused.
    destruct (toString (get "_id" doc)) as [id |] eqn:Hid; [| done].
    destruct (flatMap index more) as [others |] eqn:Hmore; [| done].
    intros [= <-]. simpl.
    assert (Hop : (before ++ Action index (VStr id) :: Source (remove "_id" doc) :: others)
                    !! (i * 2) = Some (Action index (VStr id))).
    { rewrite lookup_app_r by lia. by replace (i * 2 - length before) with 0 by lia. }
    assert (Hdoc : (before ++ Action index (VStr id) :: Source (remove "_id" doc) :: others)
                     !! (i * 2 + 1) = Some (Source (remove "_id" doc))).
    { rewrite lookup_app_r by lia. by replace (i * 2 + 1 - length before) with 1 by lia. }
    specialize (IH (before ++ [Action index (VStr id); Source (remove "_id" doc)])
                   others).
    unfold bulk_index. simpl.
    destruct (item_fault elastic index id (remove "_id" doc)) as [[st cause] |] eqn:Hitem.
    + destruct (bulk_run elastic others (ensure index s)) as [its s2] eqn:Hrun. simpl.
      rewrite Hop, Hdoc. f_equal.
      specialize (IH (ensure index s) (S i)). rewrite Hrun in IH. simpl in IH.
      rewrite <- app_assoc in IH. simpl in IH. apply IH; [| done].
      rewrite length_app. simpl. lia.
    + match goal with
      | |- context [bulk_run elastic others ?s1] =>
          destruct (bulk_run elastic others s1) as [its s2] eqn:Hrun;
          specialize (IH s1 (S i)); rewrite Hrun in IH
      end.
      simpl. simpl in IH. rewrite <- app_assoc in IH. simpl in IH. apply IH; [| done].
      rewrite length_app. simpl. lia.
Qed.

(** X9.  What the loader reports after a bulk with refused documents is
    exactly the refused documents, in the order read, each with its own
    action line and its own body; the report is written when there is at
    least one. *)
Theorem erroredDocuments_are_the_refused index body data s :
  flatMap index body = Ok data ->
  erroredDocuments data (fst (bulk_run elastic data s)) 0 =
    flat_map (refused elastic index) body /\
  existsb has_error (fst (bulk_run elastic data s)) =
    negb (Nat.eqb (length (flat_map (refused elastic index) body)) 0).
Proof.
  intros Hf. split.
  - exact (erroredDocuments_at [] index body data s 0 eq_refl Hf).
  - revert data s Hf. induction body as [| doc more IH]; intros data s.
    + simpl. by intros [= <-].
    + simpl. unfold bulk_lines, refused.
      destruct (toString (get "_id" doc)) as [id |] eqn:Hid; [| done].
      destruct (flatMap index more) as [others |] eqn:Hmore; [| done].
      intros [= <-]. simpl. unfold bulk_index. simpl.
      destruct (item_fault elastic index id (remove "_id" doc)) as [[st cause] |] eqn:Hitem.
      * by destruct (bulk_run elastic others (ensure index s)) as [its s2].
      * match goal with
        | |- context [bulk_run elastic others ?s1] =>
            specialize (IH others s1 eq_refl);
            destruct (bulk_run elastic others s1) as [its s2]
        end.
        simpl in *. unfold has_error at 1. simpl. exact IH.
Qed.
End Errored.

(** What follows only matters for the values the first part can return. *)
Lemma emits_bind_returned {A B} P (m : M A) (k : A -> M B) :
  emits P m ->
  (forall a, (exists w, fst (m w) = Ok a) -> emits P (k a)) ->
  emits P (bind m k).
Proof.
  intros Hm Hk w. unfold bind. destruct (Hm w) as (l & Hl & HP).
  destruct (m w) as [[a | e] w1] eqn:E; simpl in *; [| by exists l].
  destruct (Hk a (ex_intro _ w (f_equal fst E)) w1) as (l1 & Hl1 & HP1). exists (l ++ l1).
  rewrite Hl1, Hl, app_assoc. split; [done |]. by apply Forall_app.
Qed.

Section LoaderMore2.
Variable opt : Option.t.
Variable mongo : Mongo.
Variable elastic : Elastic.

Lemma collectionsName_In c arr :
  In (Some c) (collectionsName arr) <->
  exists ele, In ele arr /\ type ele = "collection" /\ name ele = c.
Proof.
  unfold collectionsName. rewrite in_map_iff. split.
  - intros (ele & He & Hin). exists ele.
    destruct (String.eqb (type ele) "collection") eqn:E; [| done].
    apply String.eqb_eq in E. by injection He as <-.
  - intros (ele & Hin & Ht & Hn). exists ele. split; [| done].
    rewrite Ht. simpl. by rewrite Hn.
Qed.

Lemma loop_reads ex names :
  emits (fun o => forall c, o = to_mongo (Find c) ->
                            In (Some c) names /\ skip ex (Some c) = false)
        (initDbSync_loop opt mongo elastic ex names).
Proof.
  induction names as [| collName later IH]; simpl; [emits |].
  assert (IH' : emits (fun o => forall c, o = to_mongo (Find c) ->
                         In (Some c) (collName :: later) /\ skip ex (Some c) = false)
                      (initDbSync_loop opt mongo elastic ex later)).
  { intros w. destruct (IH w) as (l & Hl & HP). exists l. split; [done |].
    eapply Forall_impl; [exact HP |]. intros o Ho c Hc. destruct (Ho c Hc). split; [by right | done]. }
  destruct (skip ex collName) eqn:Hs; [done |].
  destruct collName as [c' |]; [| done].
  apply emits_bind.
  { emits. intros c [= <-]. split; [by left | done]. }
  intros allData. apply emits_bind; [| done].
  intros w.
  destruct (createBulkDataOnElastic_not_to_mongo opt elastic
              (getPrefix (Option.prefix opt) c') allData w) as (l & Hl & HP).
  exists l. split; [done |]. eapply Forall_impl; [exact HP |]. by intros [].
Qed.

(** X10.  The snapshot loader reads a collection only if the catalog lists
    it with type ["collection"], its name is not empty and it is not in the
    exclusion list: views and excluded collections are never read. *)
Theorem initDbSync_reads_only_collections ex arr w :
  listCollections mongo = Ok arr ->
  exists l,
    out (snd (initDbSync opt mongo elastic ex w)) = out w ++ l /\
    forall c, In (to_mongo (Find c)) l ->
      (exists ele, In ele arr /\ type ele = "collection" /\ name ele = c) /\
      c <> "" /\
      (forall excludedCollections, ex = Some excludedCollections ->
                                   ~ In c excludedCollections).
Proof.
  intros Hl.
  assert (H : emits (fun o => forall c, o = to_mongo (Find c) ->
                       In (Some c) (collectionsName arr) /\ skip ex (Some c) = false)
                    (initDbSync opt mongo elastic ex)).
  { unfold initDbSync. rewrite Hl. pose proof (loop_reads ex (collectionsName arr)).
    apply emits_try_catch; [| intros ?; emits; done].
    apply emits_bind_returned; [emits; done |].
    intros a [w0 Hw0]. unfold bind, emit, lift in Hw0. simpl in Hw0. by injection Hw0 as <-. }
  destruct (H w) as (l & Hout & HP). exists l. split; [done |].
  intros c Hin. rewrite Forall_forall in HP. rewrite <- list_elem_of_In in Hin.
  destruct (HP _ Hin c eq_refl) as [Hc Hs].
  split; [by apply collectionsName_In |].
  simpl in Hs. apply orb_false_iff in Hs. destruct Hs as [Hne Hex].
  split; [by apply String.eqb_neq |].
  intros l' ->. unfold includes in Hex. intros Hc'.
  assert (existsb (String.eqb c) l' = true); [| congruence].
  apply existsb_exists. exists c. split; [done | apply String.eqb_refl].
Qed.

(** X11.  When the catalog cannot be listed the loader throws that error
    and has read no collection and sent nothing to the engine. *)
Theorem initDbSync_catalog_failure ex e w :
  listCollections mongo = Throw e ->
  initDbSync opt mongo elastic ex w =
    (Throw e,
     {| ESclient := ESclient w; db := db w; es := es w; watcher := watcher w;
        out := out w ++ to_mongo ListCollections
                     :: dbg opt [console_log [AStr "Debug: Failed to initial sync mongodb"]] |}).
Proof.
  intros Hl. unfold initDbSync, try_catch, bind, lift, when, log, emit, ret, throw, dbg.
  rewrite Hl. destruct w. destruct (Option.debug opt); simpl; unfold add_out; simpl;
    rewrite <- ?app_assoc; done.
Qed.

(** *** Dropping indices *)

Lemma without_nil s : without [] s = s.
Proof.
  destruct s as [I D n]. unfold without. simpl. f_equal.
  - apply set_eq. intros i. rewrite elem_of_difference. set_unfold. tauto.
  - apply map_filter_id. intros [i k] d _. simpl. by intros H%elem_of_nil.
Qed.

Lemma without_cons i gone s :
  without gone (snd (exec_indices_delete i s)) = without (i :: gone) s.
Proof.
  unfold without, exec_indices_delete. simpl. f_equal.
  - apply set_eq. intros j. rewrite !elem_of_difference, elem_of_union, elem_of_singleton.
    tauto.
  - rewrite map_filter_filter. apply map_filter_ext. intros [j k] d _. simpl.
    unfold in_index. simpl. rewrite elem_of_cons. split.
    + intros [H1 H2] [-> | H3]; tauto.
    + intros H. split; [intros H'; apply H; by right | intros ->; apply H; by left].
Qed.

Lemma kept_cons ex c later :
  kept ex (c :: later) = if skip ex (Some c) then kept ex later else c :: kept ex later.
Proof. unfold kept. cbn [List.filter]. by destruct (skip ex (Some c)). Qed.

Lemma dropIndices_loop_kept ex names w :
  (forall c, In c (kept ex names) ->
             request_fault elastic (EsIndicesDelete (getPrefix (Option.prefix opt) c)) = None) ->
  fst (dropIndices_loop opt elastic ex names w) = Ok tt /\
  es (snd (dropIndices_loop opt elastic ex names w)) =
    without (map (getPrefix (Option.prefix opt)) (kept ex names)) (es w) /\
  out (snd (dropIndices_loop opt elastic ex names w)) =
    out w ++ flat_map (fun c => to_elastic (EsIndicesDelete (getPrefix (Option.prefix opt) c))
                                :: dbg opt [console_log [AStr "Debug: Elastic index dropped"]])
                      (kept ex names).
Proof.
  revert w. induction names as [| c later IH]; intros w Hf.
  - simpl. rewrite without_nil, app_nil_r. done.
  - cbn [dropIndices_loop]. rewrite kept_cons in *.
    destruct (skip ex (Some c)) eqn:Hs; [by apply IH |].
    cbn [map flat_map].
    assert (Hc : request_fault elastic (EsIndicesDelete (getPrefix (Option.prefix opt) c))
                 = None) by (apply Hf; by left).
    destruct (dropIndexOnElastic_spec opt elastic _ w Hc) as (Hr & He & Ho).
    unfold bind.
    destruct (dropIndexOnElastic opt elastic (getPrefix (Option.prefix opt) c) w)
      as [r w1]. simpl in *. subst r.
    destruct (IH w1) as (Hr' & He' & Ho'); [intros c' Hc'; apply Hf; by right |].
    rewrite Hr', He', Ho', He, Ho. repeat split.
    + apply without_cons.
    + rewrite <- app_assoc. done.
Qed.

(** X12.  [dropIndices] asks the engine to delete the index of every name
    that is not empty and not excluded, in order, and of no other; when no
    call fails it returns, and the engine has lost exactly those indices
    and their documents. *)
Theorem dropIndices_drops_the_kept names ex w :
  (forall c, In c (kept ex names) ->
             request_fault elastic (EsIndicesDelete (getPrefix (Option.prefix opt) c)) = None) ->
  let after := dropIndices opt elastic names ex w in
  fst after = Ok tt /\
  es (snd after) = without (map (getPrefix (Option.prefix opt)) (kept ex names)) (es w) /\
  out (snd after) =
    out w ++ flat_map (fun c => to_elastic (EsIndicesDelete (getPrefix (Option.prefix opt) c))
                                :: dbg opt [console_log [AStr "Debug: Elastic index dropped"]])
                      (kept ex names).
Proof.
  intros Hf after. subst after. unfold dropIndices, try_catch.
  destruct (dropIndices_loop_kept ex names w Hf) as (Hr & He & Ho).
  destruct (dropIndices_loop opt elastic ex names w) as [r w1]. simpl in *. by subst r.
Qed.

(** X13.  The exclusion list is compared with the name as given, the index
    name is made from the name in lower case: dropping the indices of a
    name that differs from an excluded name only by case deletes the index
    of the excluded collection. *)
Theorem dropIndices_case_collision names c c' ex w :
  skip ex (Some c) = true ->
  In c' names ->
  skip ex (Some c') = false ->
  toLowerCase c = toLowerCase c' ->
  (forall c, In c (kept ex names) ->
             request_fault elastic (EsIndicesDelete (getPrefix (Option.prefix opt) c)) = None) ->
  let after := dropIndices opt elastic names ex w in
  fst after = Ok tt /\
  (getPrefix (Option.prefix opt) c ∉ indices (es (snd after))) /\
  forall k, docs (es (snd after)) !! (getPrefix (Option.prefix opt) c, k) = None.
Proof.
  intros Hc Hin Hc' Hlow Hf after. subst after. unfold dropIndices, try_catch.
  destruct (dropIndices_loop_kept ex names w Hf) as (Hr & He & _).
  destruct (dropIndices_loop opt elastic ex names w) as [r w1]. cbn [fst snd] in *. subst r.
  assert (Hgone : getPrefix (Option.prefix opt) c
                  ∈ map (getPrefix (Option.prefix opt)) (kept ex names)).
  { apply list_elem_of_In, in_map_iff. exists c'. split.
    - unfold getPrefix. by rewrite Hlow.
    - unfold kept. apply filter_In. split; [done |]. cbv beta. by rewrite Hc'. }
  cbn [fst snd]. rewrite He. unfold without. cbn [indices docs]. repeat split.
  - rewrite elem_of_difference, elem_of_list_to_set. tauto.
  - intros k. apply map_lookup_filter_None. right. intros d _ Hn. by apply Hn.
Qed.
End LoaderMore2.

Lemma append_cancel (p a b : string) : p +:+ a = p +:+ b -> a = b.
Proof. induction p as [| c p IH]; simpl; [done |]. intros [= H]. by apply IH. Qed.

(** X14.  Two collections of one database share an index exactly when their
    names are the same in lower case. *)
Theorem getPrefix_same_index P C C' :
  getPrefix P C = getPrefix P C' <-> toLowerCase C = toLowerCase C'.
Proof.
  unfold getPrefix. split.
  - intros H. apply append_cancel in H. by apply (append_cancel "__") in H.
  - by intros ->.
Qed.

Create HintDb listener discriminated.

Lemma leaves_listener_ret {A} (a : A) : leaves_listener (ret a).
Proof. done. Qed.
Lemma leaves_listener_throw {A} e : leaves_listener (@throw A e).
Proof. done. Qed.
Lemma leaves_listener_lift {A} (r : result A) : leaves_listener (lift r).
Proof. done. Qed.
Lemma leaves_listener_emit o : leaves_listener (emit o).
Proof. done. Qed.
Lemma leaves_listener_log s : leaves_listener (log s).
Proof. done. Qed.
Lemma leaves_listener_bind {A B} (m : M A) (k : A -> M B) :
  leaves_listener m -> (forall a, leaves_listener (k a)) -> leaves_listener (bind m k).
Proof.
  intros Hm Hk w. unfold bind. specialize (Hm w).
  destruct (m w) as [[a | e] w1]; simpl in *; [| done]. by rewrite Hk.
Qed.
Lemma leaves_listener_try_catch {A} (m : M A) handler :
  leaves_listener m -> (forall e, leaves_listener (handler e)) ->
  leaves_listener (try_catch m handler).
Proof.
  intros Hm Hk w. unfold try_catch. specialize (Hm w).
  destruct (m w) as [[a | e] w1]; simpl in *; [done |]. by rewrite Hk.
Qed.
Lemma leaves_listener_when b m : leaves_listener m -> leaves_listener (when b m).
Proof. by destruct b. Qed.
Lemma leaves_listener_call {A} elastic r (exec : es_state -> result A * es_state) :
  leaves_listener (call elastic r exec).
Proof.
  intros w. unfold call. destruct (request_fault elastic r); [done |].
  simpl. by destruct (exec (es w)).
Qed.
Lemma leaves_listener_store_only {A} (m : M A) : store_only m -> leaves_listener m.
Proof. intros H w. by destruct (H w) as (_ & _ & ? & _). Qed.

#[export] Hint Resolve leaves_listener_ret leaves_listener_throw leaves_listener_lift
  leaves_listener_emit leaves_listener_log leaves_listener_call : listener.

Ltac listener :=
  repeat
    match goal with
    | |- leaves_listener (bind _ _) => apply leaves_listener_bind; [| intros ?]
    | |- leaves_listener (try_catch _ _) => apply leaves_listener_try_catch; [| intros ?]
    | |- leaves_listener (when _ _) => apply leaves_listener_when
    | |- leaves_listener (if ?b then _ else _) => destruct b
    | |- leaves_listener (match ?x with _ => _ end) => destruct x
    | |- leaves_listener _ => solve [auto with listener]
    end.

Section OrchestratorMore.
Variable opt : Option.t.
Variable mongo : Mongo.
Variable elastic : Elastic.

Lemma leaves_listener_initElastic : leaves_listener (initElastic opt elastic).
Proof. unfold initElastic. listener. done. Qed.

Lemma leaves_listener_initMongo : leaves_listener (initMongo opt mongo).
Proof. unfold initMongo. listener. done. Qed.

Lemma leaves_listener_handles : leaves_listener (handles opt mongo elastic).
Proof.
  unfold handles. apply leaves_listener_bind; [| intros _]; intros w.
  - destruct (ESclient w); [done | apply leaves_listener_initElastic].
  - destruct (db w); [done | apply leaves_listener_initMongo].
Qed.

Lemma leaves_listener_createBulkDataOnElastic index body :
  leaves_listener (createBulkDataOnElastic opt elastic index body).
Proof. unfold createBulkDataOnElastic. listener. Qed.

Lemma leaves_listener_loop ex names :
  leaves_listener (initDbSync_loop opt mongo elastic ex names).
Proof.
  induction names as [| collName later IH]; simpl; [done |].
  pose proof leaves_listener_createBulkDataOnElastic.
  destruct (skip ex collName); [done |]. destruct collName; [| done]. listener.
Qed.

Lemma leaves_listener_initDbSync ex : leaves_listener (initDbSync opt mongo elastic ex).
Proof. unfold initDbSync. pose proof (leaves_listener_loop ex). listener. Qed.

Lemma leaves_listener_initialSync ex : leaves_listener (initialSync opt mongo elastic ex).
Proof.
  unfold initialSync. pose proof (leaves_listener_initDbSync ex).
  apply leaves_listener_try_catch; [| intros ?; listener].
  apply leaves_listener_bind; [| intros _].
  { intros w. destruct (ESclient w); [done | apply leaves_listener_initElastic]. }
  apply leaves_listener_bind; [| intros _].
  { intros w. destruct (db w); [done | apply leaves_listener_initMongo]. }
  listener.
Qed.

Lemma deliver_no_listener feed w : watcher w = None -> deliver opt elastic feed w = w.
Proof. intros H. destruct feed; simpl; [done |]. by rewrite H. Qed.

Lemma initialSync_throws_on ex w e :
  Option.debug opt = true ->
  fst (handles opt mongo elastic w) = Ok tt ->
  fst (initDbSync opt mongo elastic ex (snd (handles opt mongo elastic w))) = Throw e ->
  fst (initialSync opt mongo elastic ex (snd (handles opt mongo elastic w))) = Throw e.
Proof.
  intros Hd Hh Hs.
  destruct (handles_set opt mongo elastic w Hh) as [He Hdb].
  destruct (overlays_initDbSync opt mongo elastic ex) as (r & I & D & Hov).
  assert (r = Throw e) as -> by (destruct (Hov (snd (handles opt mongo elastic w))); congruence).
  unfold initialSync, try_catch, bind, when, log, emit, ret, throw. rewrite He, Hdb, Hd.
  simpl. destruct (Hov (add_out (console_log [AStr "Debug: Initial mongodb sync started"])
                          (snd (handles opt mongo elastic w)))) as [Hr _].
  destruct (initDbSync opt mongo elastic ex (add_out _ _)) as [r' w']; simpl in *.
  by subst r'.
Qed.

Lemma startSync_rejects_on ex feed w e :
  Option.debug opt = true ->
  Option.initialSync opt = true ->
  watcher w = None ->
  fst (handles opt mongo elastic w) = Ok tt ->
  fst (initialSync opt mongo elastic ex (snd (handles opt mongo elastic w))) = Throw e ->
  startSync opt mongo elastic ex feed w =
    (Rejected e, snd (initialSync opt mongo elastic ex (snd (handles opt mongo elastic w)))).
Proof.
  intros Hd Hi Hw Hh Hinit.
  pose proof (leaves_listener_handles w) as Hwh. rewrite Hw in Hwh.
  pose proof (leaves_listener_initialSync ex (snd (handles opt mongo elastic w))) as Hwi.
  rewrite Hwh in Hwi.
  unfold startSync. rewrite startSync_try_handles. unfold bind at 1.
  destruct (handles opt mongo elastic w) as [rh wh]; simpl in *. subst rh.
  rewrite Hi. unfold bind, when.
  destruct (initialSync opt mongo elastic ex wh) as [ri wi]; simpl in *. subst ri.
  unfold report. rewrite Hd. simpl. by rewrite (deliver_no_listener feed wi Hwi).
Qed.

(** X15.  With [debug] a failure of the snapshot is thrown on by
    [initialSync] and by [startSync]: the promise of [startSync] is rejected
    with it and no change listener is registered, whatever the feed sends. *)
Theorem startSync_debug_snapshot_failure ex feed w e :
  Option.debug opt = true ->
  Option.initialSync opt = true ->
  watcher w = None ->
  fst (handles opt mongo elastic w) = Ok tt ->
  fst (initDbSync opt mongo elastic ex (snd (handles opt mongo elastic w))) = Throw e ->
  fst (initialSync opt mongo elastic ex (snd (handles opt mongo elastic w))) = Throw e /\
  fst (startSync opt mongo elastic ex feed w) = Rejected e /\
  watcher (snd (startSync opt mongo elastic ex feed w)) = None.
Proof.
  intros Hd Hi Hw Hh Hs.
  pose proof (initialSync_throws_on ex w e Hd Hh Hs) as Hinit.
  split; [exact Hinit |].
  rewrite (startSync_rejects_on ex feed w e Hd Hi Hw Hh Hinit). simpl.
  split; [reflexivity |].
  rewrite leaves_listener_initialSync, leaves_listener_handles. exact Hw.
Qed.

(** X16.  When the Elasticsearch client cannot be made, [startSync] stops
    there: it does not connect to MongoDB, reads nothing and registers no
    listener.  With [debug] its promise is rejected with the error; without
    it the error is written to the console and the promise is resolved. *)
Theorem startSync_without_elastic ex feed w e :
  ESclient w = false ->
  watcher w = None ->
  client_fault elastic = Some e ->
  startSync opt mongo elastic ex feed w =
    (if Option.debug opt then Rejected e else Resolved,
     {| ESclient := false; db := db w; es := es w; watcher := None;
        out := out w ++ new_Client
                     :: (if Option.debug opt
                         then [console_log [AStr "Debug: Failed to connect elastic"]]
                         else [console_log [AErr e]]) |}).
Proof.
  intros He Hw Hc.
  unfold startSync, startSync_try, initElastic, report, try_catch, bind, when, log, emit, lift,
    ret, throw.
  rewrite He. simpl. rewrite Hc. destruct w as [cl d s wt o]. simpl in *. subst cl wt.
  destruct (Option.debug opt); simpl; rewrite deliver_no_listener by done;
    unfold add_out; simpl; rewrite <- ?app_assoc; done.
Qed.

(** X17.  Once the promise of [initWatcher] is settled, and without
    [debug], the listener is silent about failures: an event the translator
    throws on leaves exactly what the translator left, the promise as it
    was, and the listener returns normally. *)
Theorem on_change_after_first_event data w p :
  Option.debug opt = false ->
  watcher w = Some p ->
  p <> Pending ->
  on_change opt elastic data None w =
    (Ok tt, snd (generateOperation opt elastic data w)).
Proof.
  intros Hd Hw Hp.
  destruct (store_only_generateOperation opt elastic data w) as (_ & _ & Hwg & _ & _).
  unfold on_change, try_catch, bind, when, ret, resolve, reject, settle. rewrite Hd.
  destruct (generateOperation opt elastic data w) as [[[] | e] w1]; simpl in *;
    rewrite Hwg, Hw; by destruct p.
Qed.

(** X18.  When the listener is called with an error it rejects the promise
    with it and goes on to translate the event all the same. *)
Theorem on_change_with_error data e w :
  watcher w = Some Pending ->
  fst (on_change opt elastic data (Some e) w) = Ok tt /\
  watcher (snd (on_change opt elastic data (Some e) w)) = Some (Rejected e) /\
  es (snd (on_change opt elastic data (Some e) w)) =
    es (snd (generateOperation opt elastic data w)).
Proof.
  intros Hw.
  destruct (store_only_generateOperation opt elastic data w) as (_ & _ & _ & _ & Hdet).
  unfold on_change, try_catch, bind, when, log, emit, ret, resolve, reject, settle.
  rewrite Hw. simpl.
  destruct (Option.debug opt); simpl.
  all: match goal with
       | |- context [generateOperation opt elastic ?d ?w1] =>
           destruct (Hdet w1 eq_refl) as [Hr Hs];
           destruct (store_only_generateOperation opt elastic d w1) as (_ & _ & Hw1 & _ & _);
           try rewrite Hs;
           destruct (generateOperation opt elastic d w1) as [[[] | e'] w2]
       end.
  all: simpl in *; rewrite ?Hw1; simpl; done.
Qed.
End OrchestratorMore.

Section DropMore.
Variable opt : Option.t.
Variable mongo : Mongo.
Variable elastic : Elastic.

Lemma dropIndexOnElastic_fails index e w :
  request_fault elastic (EsIndicesDelete index) = Some e ->
  dropIndexOnElastic opt elastic index w =
    (Throw e,
     {| ESclient := ESclient w; db := db w; es := es w; watcher := watcher w;
        out := out w ++ to_elastic (EsIndicesDelete index)
                     :: dbg opt [console_log [AStr "Debug: Failed to drop index"]] |}).
Proof.
  intros Hf. unfold dropIndexOnElastic, try_catch, bind, call, when, log, emit, ret, throw, dbg.
  rewrite Hf. destruct w. destruct (Option.debug opt); simpl; unfold add_out; simpl;
    rewrite <- ?app_assoc; done.
Qed.

Lemma dropIndices_loop_fails ex names before c later e w :
  kept ex names = before ++ c :: later ->
  (forall c0, In c0 before ->
              request_fault elastic (EsIndicesDelete (getPrefix (Option.prefix opt) c0)) = None) ->
  request_fault elastic (EsIndicesDelete (getPrefix (Option.prefix opt) c)) = Some e ->
  fst (dropIndices_loop opt elastic ex names w) = Throw e /\
  es (snd (dropIndices_loop opt elastic ex names w)) =
    without (map (getPrefix (Option.prefix opt)) before) (es w) /\
  ESclient (snd (dropIndices_loop opt elastic ex names w)) = ESclient w /\
  db (snd (dropIndices_loop opt elastic ex names w)) = db w /\
  out (snd (dropIndices_loop opt elastic ex names w)) =
    out w ++ flat_map (fun c => to_elastic (EsIndicesDelete (getPrefix (Option.prefix opt) c))
                                :: dbg opt [console_log [AStr "Debug: Elastic index dropped"]])
                      before
          ++ to_elastic (EsIndicesDelete (getPrefix (Option.prefix opt) c))
             :: dbg opt [console_log [AStr "Debug: Failed to drop index"]].
Proof.
  revert before w. induction names as [| n rest IH]; intros before w Hk Hb Hc.
  - by destruct before.
  - cbn [dropIndices_loop]. rewrite kept_cons in Hk.
    destruct (skip ex (Some n)) eqn:Hs; [by apply IH |].
    unfold bind. destruct before as [| b before']; simpl in Hk; injection Hk as Hn Hk;
      subst n.
    + rewrite (dropIndexOnElastic_fails _ e w Hc). simpl.
      rewrite without_nil. done.
    + assert (Hn : request_fault elastic (EsIndicesDelete (getPrefix (Option.prefix opt) b))
                   = None) by (apply Hb; by left).
      destruct (dropIndexOnElastic_spec opt elastic _ w Hn) as (Hr & He & Ho).
      pose proof (store_only_dropIndexOnElastic opt elastic
                    (getPrefix (Option.prefix opt) b) w) as (Hcl & Hd & _).
      destruct (dropIndexOnElastic opt elastic (getPrefix (Option.prefix opt) b) w)
        as [r w1]. simpl in *. subst r.
      destruct (IH before' w1 Hk) as (Hr' & He' & Hcl' & Hd' & Ho');
        [intros c0 H0; apply Hb; by right | done |].
      rewrite Hr', He', Hcl', Hd', Ho', He, Ho, Hcl, Hd. repeat split.
      * apply without_cons.
      * by rewrite <- !app_assoc.
Qed.

(** X19.  When the engine fails to delete one of the indices,
    [startDropIndices] stops there: the indices before it are gone, the
    later ones are not asked for.  With [debug] the error is thrown on;
    without it the error is written to the console and the call returns. *)
Theorem startDropIndices_stops_at_failure names ex before c later e w :
  ESclient w = true ->
  db w = true ->
  kept ex names = before ++ c :: later ->
  (forall c0, In c0 before ->
              request_fault elastic (EsIndicesDelete (getPrefix (Option.prefix opt) c0)) = None) ->
  request_fault elastic (EsIndicesDelete (getPrefix (Option.prefix opt) c)) = Some e ->
  let after := startDropIndices opt mongo elastic names ex w in
  fst after = (if Option.debug opt then Throw e else Ok tt) /\
  es (snd after) = without (map (getPrefix (Option.prefix opt)) before) (es w) /\
  out (snd after) =
    out w ++ flat_map (fun c => to_elastic (EsIndicesDelete (getPrefix (Option.prefix opt) c))
                                :: dbg opt [console_log [AStr "Debug: Elastic index dropped"]])
                      before
          ++ to_elastic (EsIndicesDelete (getPrefix (Option.prefix opt) c))
             :: (if Option.debug opt
                 then [console_log [AStr "Debug: Failed to drop index"];
                       console_log [AStr "Debug: Failed to drop indices in elastic"]]
                 else [console_log [AErr e]]).
Proof.
  intros Hcl Hd Hk Hb Hc after. subst after.
  destruct (dropIndices_loop_fails ex names before c later e w Hk Hb Hc)
    as (Hr & He & _ & _ & Ho).
  unfold startDropIndices, dropIndices, report, try_catch, bind, when, log, emit, ret, throw.
  rewrite Hcl, Hd.
  destruct (dropIndices_loop opt elastic ex names w) as [r w1]. simpl in *. subst r.
  unfold dbg in *.
  destruct (Option.debug opt); simpl; rewrite ?Ho, <- ?app_assoc; simpl; done.
Qed.
End DropMore.

(** ** The launcher *)

Lemma provided_Boolean v s : provided v = Some s -> v = Some s /\ Boolean s = true.
Proof.
  unfold provided. destruct v as [t |]; [| done]. destruct (Boolean t) eqn:E; [| done].
  by intros [= <-].
Qed.

Lemma docker_new_Sync env readFileSync mongoURL elasticURL opt tls :
  docker env readFileSync = new_Sync mongoURL elasticURL opt tls ->
  exists prefix isDebug withInitialSync pathToCertificate isCertificateSelfSigned certificate,
    provided (MONGODB_URL_WITH_REPLICA_SET env) = Some mongoURL /\
    provided (ELASTIC_URL env) = Some elasticURL /\
    provided (INDEX_PREFIX env) = Some prefix /\
    provided (IS_DEBUG env) = Some isDebug /\
    provided (WITH_INITIAL_SYNC env) = Some withInitialSync /\
    provided (PATH_TO_CERTIFICATE env) = Some pathToCertificate /\
    provided (IS_CERTIFICATE_SELF_SIGNED env) = Some isCertificateSelfSigned /\
    readFileSync pathToCertificate = Some certificate /\
    opt = {| Option.prefix := prefix;
             Option.debug := Boolean isDebug;
             Option.initialSync := Boolean withInitialSync |} /\
    tls = {| ca := certificate;
             rejectUnauthorized := negb (Boolean isCertificateSelfSigned) |}.
Proof.
  unfold docker.
  destruct (provided (MONGODB_URL_WITH_REPLICA_SET env)) as [a |] eqn:H1; [| done].
  destruct (provided (ELASTIC_URL env)) as [b |] eqn:H2; [| done].
  destruct (provided (INDEX_PREFIX env)) as [c |] eqn:H3; [| done].
  destruct (provided (IS_DEBUG env)) as [d |] eqn:H4; [| done].
  destruct (provided (WITH_INITIAL_SYNC env)) as [e |] eqn:H5; [| done].
  destruct (provided (PATH_TO_CERTIFICATE env)) as [f |] eqn:H6; [| done].
  destruct (provided (IS_CERTIFICATE_SELF_SIGNED env)) as [g |] eqn:H7; [| done].
  destruct (readFileSync f) as [h |] eqn:H8; [| done].
  intros [= <- <- <- <-]. by exists c, d, e, f, g, h.
Qed.

(** X20.  When the launcher gets as far as building the [Sync] object, the
    object has [debug] and [initialSync] switched on and certificate
    checking switched off, whatever the variables say: they are turned into
    booleans with [Boolean], which is true of every string that passed the
    checks, ["false"] included. *)
Theorem docker_flags env readFileSync mongoURL elasticURL opt tls :
  docker env readFileSync = new_Sync mongoURL elasticURL opt tls ->
  Option.debug opt = true /\
  Option.initialSync opt = true /\
  rejectUnauthorized tls = false /\
  INDEX_PREFIX env = Some (Option.prefix opt) /\
  MONGODB_URL_WITH_REPLICA_SET env = Some mongoURL /\
  ELASTIC_URL env = Some elasticURL.
Proof.
  intros Hdocker.
  destruct (docker_new_Sync _ _ _ _ _ _ Hdocker)
    as (c & d & e & f & g & h & H1 & H2 & H3 & H4 & H5 & _ & H7 & _ & -> & ->).
  apply provided_Boolean in H1, H2, H3, H4, H5, H7.
  destruct H1 as [-> _], H2 as [-> _], H3 as [-> _], H4 as [_ ->], H5 as [_ ->], H7 as [_ ->].
  done.
Qed.

(** X21.  The launcher stops with an [Error] exactly when one of its seven
    variables is unset or is the empty string; a variable that holds any
    other text, ["false"] or ["0"] included, passes its check. *)
Theorem docker_Error env readFileSync :
  (exists message, docker env readFileSync = Error message) <->
  (exists v, In v (variables env) /\ (v = None \/ v = Some "")).
Proof.
  assert (Hp : forall v, provided v = None <-> (v = None \/ v = Some "")).
  { intros [s |]; unfold provided, Boolean; simpl.
    - destruct (String.eqb_spec s ""); simpl; split; try done.
      + intros _. right. by subst.
      + intros [? | [= ?]]; done.
    - split; auto. }
  assert (Hs : forall v, (exists s, provided v = Some s) -> ~ (v = None \/ v = Some "")).
  { intros v [s Hv] Hn. apply Hp in Hn. congruence. }
  unfold docker, variables. split.
  - intros [message Hd].
    destruct (provided (MONGODB_URL_WITH_REPLICA_SET env)) eqn:H1;
      [| exists (MONGODB_URL_WITH_REPLICA_SET env); rewrite <- Hp; simpl; auto].
    destruct (provided (ELASTIC_URL env)) eqn:H2;
      [| exists (ELASTIC_URL env); rewrite <- Hp; simpl; auto].
    destruct (provided (INDEX_PREFIX env)) eqn:H3;
      [| exists (INDEX_PREFIX env); rewrite <- Hp; simpl; auto].
    destruct (provided (IS_DEBUG env)) eqn:H4;
      [| exists (IS_DEBUG env); rewrite <- Hp; simpl; auto 6].
    destruct (provided (WITH_INITIAL_SYNC env)) eqn:H5;
      [| exists (WITH_INITIAL_SYNC env); rewrite <- Hp; simpl; auto 7].
    destruct (provided (PATH_TO_CERTIFICATE env)) eqn:H6;
      [| exists (PATH_TO_CERTIFICATE env); rewrite <- Hp; simpl; auto 8].
    destruct (provided (IS_CERTIFICATE_SELF_SIGNED env)) eqn:H7;
      [| exists (IS_CERTIFICATE_SELF_SIGNED env); rewrite <- Hp; simpl; auto 9].
    destruct (readFileSync _); discriminate.
  - intros (v & Hin & Hv). apply Hp in Hv.
    destruct (provided (MONGODB_URL_WITH_REPLICA_SET env)) eqn:H1; [| eauto].
    destruct (provided (ELASTIC_URL env)) eqn:H2; [| eauto].
    destruct (provided (INDEX_PREFIX env)) eqn:H3; [| eauto].
    destruct (provided (IS_DEBUG env)) eqn:H4; [| eauto].
    destruct (provided (WITH_INITIAL_SYNC env)) eqn:H5; [| eauto].
    destruct (provided (PATH_TO_CERTIFICATE env)) eqn:H6; [| eauto].
    destruct (provided (IS_CERTIFICATE_SELF_SIGNED env)) eqn:H7; [| eauto].
    simpl in Hin.
    destruct Hin as [<- | [<- | [<- | [<- | [<- | [<- | [<- | []]]]]]]]; congruence.
Qed.

Section LauncherMore.
Variable mongo : Mongo.
Variable elastic : Elastic.

Lemma handles_connects opt w :
  client_fault elastic = None ->
  mongo_connect mongo = None ->
  fst (handles opt mongo elastic w) = Ok tt.
Proof.
  intros He Hm.
  unfold handles, initElastic, initMongo, bind, try_catch, when, log, emit, lift, ret, throw.
  rewrite He, Hm.
  destruct (ESclient w) eqn:E, (db w) eqn:D, (Option.debug opt); simpl; rewrite ?D; done.
Qed.

(** X22.  Started through the launcher, a failure of the snapshot is never
    swallowed: [debug] is on, so the promise of [startSync] is rejected with
    the error (and nobody waits for it), and no change listener is
    registered. *)
Theorem docker_snapshot_failure env readFileSync engine feed
        mongoURL elasticURL opt tls e :
  docker env readFileSync = new_Sync mongoURL elasticURL opt tls ->
  client_fault elastic = None ->
  mongo_connect mongo = None ->
  fst (initDbSync opt mongo elastic (Some excludedCollections)
         {| ESclient := true; db := true; es := engine; watcher := None; out := [] |})
    = Throw e ->
  exists w, docker_main env readFileSync mongo elastic engine feed = Some (Rejected e, w) /\
            watcher w = None.
Proof.
  intros Hdocker He Hm Hs.
  assert (Option.debug opt = true /\ Option.initialSync opt = true) as [Hd Hi].
  { destruct (docker_new_Sync _ _ _ _ _ _ Hdocker)
      as (c & d & g & f & s & h & _ & _ & _ & H4 & H5 & _ & _ & _ & -> & _).
    apply provided_Boolean in H4, H5. by destruct H4 as [_ ->], H5 as [_ ->]. }
  unfold docker_main. rewrite Hdocker.
  set (w0 := {| ESclient := false; db := false; es := engine; watcher := None;
                out := [console_log [AStr "Started"]] |}).
  destruct (overlays_initDbSync opt mongo elastic (Some excludedCollections))
    as (r & I & D & Hov).
  assert (r = Throw e) as ->.
  { destruct (Hov {| ESclient := true; db := true; es := engine; watcher := None;
                     out := [] |}) as [Hr _]. congruence. }
  pose proof (handles_connects opt w0 He Hm) as Hh.
  assert (Hsnap : fst (initDbSync opt mongo elastic (Some excludedCollections)
                         (snd (handles opt mongo elastic w0))) = Throw e)
    by (by destruct (Hov (snd (handles opt mongo elastic w0)))).
  pose proof (initialSync_throws_on opt mongo elastic (Some excludedCollections) w0 e
                Hd Hh Hsnap) as Hinit.
  rewrite (startSync_rejects_on opt mongo elastic (Some excludedCollections) feed w0 e
             Hd Hi eq_refl Hh Hinit).
  eexists. split; [reflexivity |].
  rewrite (leaves_listener_initialSync opt mongo elastic),
          (leaves_listener_handles opt mongo elastic).
  reflexivity.
Qed.
End LauncherMore.

(** ** The deployment, once more *)


Lemma delete_event_without_id_witness :
  (exists e, fst (generateOperation cfg healthy delete_nothing loaded) = Throw e) /\
  es (snd (generateOperation cfg healthy delete_nothing loaded)) = es loaded.
Proof.
  apply (delete_event_without_id cfg healthy delete_nothing "sync__orders" loaded);
    [reflexivity | reflexivity | left; reflexivity].
Defined.

Lemma insert_then_delete_witness :
  let inserted := generateOperation cfg healthy insert_o4 loaded in
  let deleted := generateOperation cfg healthy delete_o4 (snd inserted) in
  fst inserted = Ok tt /\
  fst deleted = Ok tt /\
  docs (es (snd deleted)) = delete ("sync__orders", "o4") (docs (es loaded)).
Proof.
  exact (insert_then_delete cfg healthy insert_o4 delete_o4 "sync__orders"
           [("_id", VObjectId "o4"); ("status", VStr "new")]
           [("_id", VObjectId "o4")] "o4" loaded
           eq_refl eq_refl eq_refl eq_refl eq_refl eq_refl eq_refl eq_refl eq_refl
           eq_refl eq_refl).
Defined.

Lemma drop_event_redelivery_witness :
  let first := generateOperation cfg healthy drop_orders loaded in
  let second := generateOperation cfg healthy drop_orders (snd first) in
  fst first = Ok tt /\
  ("sync__orders" ∉ indices (es (snd first))) /\
  (forall i, i <> "sync__orders" ->
             (i ∈ indices (es (snd first)) <-> i ∈ indices (es loaded))) /\
  (forall i k, docs (es (snd first)) !! (i, k) =
               if decide (i = "sync__orders") then None else docs (es loaded) !! (i, k)) /\
  fst second = Ok tt /\
  es (snd second) = es (snd first).
Proof.
  exact (drop_event_redelivery cfg healthy drop_orders "sync__orders" loaded
           eq_refl eq_refl eq_refl).
Defined.

Lemma snapshot_agrees_with_insert_witness :
  es (snd (createBulkDataOnElastic cfg healthy "sync__orders"
             [[("_id", VObjectId "o4"); ("status", VStr "new")]] loaded)) =
  es (snd (generateOperation cfg healthy insert_o4 loaded)).
Proof.
  exact (snapshot_agrees_with_insert cfg healthy insert_o4 "sync__orders"
           [("_id", VObjectId "o4"); ("status", VStr "new")] "o4" loaded
           eq_refl eq_refl eq_refl eq_refl eq_refl eq_refl eq_refl eq_refl).
Defined.

Lemma createBulkDataOnElastic_missing_id_witness :
  exists msg,
    createBulkDataOnElastic cfg healthy "sync__orders" [[("status", VStr "new")]] fresh =
      (Throw (TypeError msg),
       {| ESclient := ESclient fresh; db := db fresh; es := es fresh; watcher := watcher fresh;
          out := out fresh ++ dbg cfg [console_log [AStr nl; AStr "sync__orders"]]
                 ++ dbg cfg [console_log [AStr "Debug: Failed to create bulk index"]] |}).
Proof.
  apply (createBulkDataOnElastic_missing_id cfg healthy "sync__orders"
           [[("status", VStr "new")]] [("status", VStr "new")] fresh);
    [left; reflexivity | left; reflexivity].
Defined.

Lemma erroredDocuments_are_the_refused_witness :
  let data := [ Action "sync__orders" (VStr "o1"); Source [("status", VStr "new")];
                Action "sync__orders" (VStr "o2"); Source [("status", VStr "paid")];
                Action "sync__orders" (VStr "o3"); Source [("status", VStr "new")] ] in
  erroredDocuments data (fst (bulk_run picky data empty_engine)) 0 =
    flat_map (refused picky "sync__orders") orders /\
  existsb has_error (fst (bulk_run picky data empty_engine)) =
    negb (Nat.eqb (length (flat_map (refused picky "sync__orders") orders)) 0).
Proof.
  exact (erroredDocuments_are_the_refused picky "sync__orders" orders _ empty_engine eq_refl).
Defined.

Example refused_order :
  flat_map (refused picky "sync__orders") orders =
    [ {| status := 400;
         error_cause := Some "mapper_parsing_exception";
         operation := Some (Action "sync__orders" (VStr "o2"));
         errored_doc := Some (Source [("status", VStr "paid")]) |} ].
Proof. reflexivity. Qed.

Lemma initDbSync_reads_only_collections_witness :
  exists l,
    out (snd (initDbSync cfg shop healthy excluded fresh)) = out fresh ++ l /\
    forall c, In (to_mongo (Find c)) l ->
      (exists ele,
         In ele [ {| name := "Orders"; type := "collection" |};
                  {| name := "pages"; type := "collection" |};
                  {| name := "report"; type := "view" |} ] /\
         type ele = "collection" /\ name ele = c) /\
      c <> "" /\
      (forall excludedCollections, excluded = Some excludedCollections ->
                                   ~ In c excludedCollections).
Proof.
  exact (initDbSync_reads_only_collections cfg shop healthy excluded _ fresh eq_refl).
Defined.

Lemma initDbSync_catalog_failure_witness :
  initDbSync cfg shop_down healthy excluded fresh =
    (Throw (MongoError "not authorized"),
     {| ESclient := ESclient fresh; db := db fresh; es := es fresh; watcher := watcher fresh;
        out := out fresh ++ to_mongo ListCollections
               :: dbg cfg [console_log [AStr "Debug: Failed to initial sync mongodb"]] |}).
Proof.
  exact (initDbSync_catalog_failure cfg shop_down healthy excluded
           (MongoError "not authorized") fresh eq_refl).
Defined.

Lemma dropIndices_drops_the_kept_witness :
  let after := dropIndices cfg healthy ["Orders"; "pages"; ""] excluded loaded in
  fst after = Ok tt /\
  es (snd after) =
    without (map (getPrefix (Option.prefix cfg)) (kept excluded ["Orders"; "pages"; ""]))
            (es loaded) /\
  out (snd after) =
    out loaded
    ++ flat_map (fun c => to_elastic (EsIndicesDelete (getPrefix (Option.prefix cfg) c))
                          :: dbg cfg [console_log [AStr "Debug: Elastic index dropped"]])
                (kept excluded ["Orders"; "pages"; ""]).
Proof.
  apply (dropIndices_drops_the_kept cfg healthy ["Orders"; "pages"; ""] excluded loaded).
  intros c _. reflexivity.
Defined.

Example kept_names : kept excluded ["Orders"; "pages"; ""] = ["Orders"].
Proof. reflexivity. Qed.

Lemma dropIndices_case_collision_witness :
  let after := dropIndices cfg healthy ["Pages"] excluded stale in
  fst after = Ok tt /\
  (getPrefix (Option.prefix cfg) "pages" ∉ indices (es (snd after))) /\
  forall k, docs (es (snd after)) !! (getPrefix (Option.prefix cfg) "pages", k) = None.
Proof.
  apply (dropIndices_case_collision cfg healthy ["Pages"] "pages" "Pages" excluded stale);
    [reflexivity | left; reflexivity | reflexivity | reflexivity | intros c _; reflexivity].
Defined.

Lemma startDropIndices_stops_at_failure_witness :
  let after := startDropIndices cfg shop drop_unavailable
                 ["Customers"; "Orders"; "Invoices"] None stale in
  fst after = (if Option.debug cfg then Throw (ResponseError 503 "cluster_block_exception")
               else Ok tt) /\
  es (snd after) = without (map (getPrefix (Option.prefix cfg)) ["Customers"]) (es stale) /\
  out (snd after) =
    out stale
    ++ flat_map (fun c => to_elastic (EsIndicesDelete (getPrefix (Option.prefix cfg) c))
                          :: dbg cfg [console_log [AStr "Debug: Elastic index dropped"]])
                ["Customers"]
    ++ to_elastic (EsIndicesDelete (getPrefix (Option.prefix cfg) "Orders"))
       :: (if Option.debug cfg
           then [console_log [AStr "Debug: Failed to drop index"];
                 console_log [AStr "Debug: Failed to drop indices in elastic"]]
           else [console_log [AErr (ResponseError 503 "cluster_block_exception")]]).
Proof.
  apply (startDropIndices_stops_at_failure cfg shop drop_unavailable
           ["Customers"; "Orders"; "Invoices"] None ["Customers"] "Orders" ["Invoices"]
           (ResponseError 503 "cluster_block_exception") stale);
    [reflexivity | reflexivity | reflexivity | | reflexivity].
  intros c [<- | []]. reflexivity.
Defined.

Lemma startSync_debug_snapshot_failure_witness :
  fst (initialSync cfg_debug shop_unreadable healthy excluded
         (snd (handles cfg_debug shop_unreadable healthy fresh)))
    = Throw (MongoError "cursor failed") /\
  fst (startSync cfg_debug shop_unreadable healthy excluded [insert_o4] fresh)
    = Rejected (MongoError "cursor failed") /\
  watcher (snd (startSync cfg_debug shop_unreadable healthy excluded [insert_o4] fresh)) = None.
Proof.
  apply (startSync_debug_snapshot_failure cfg_debug shop_unreadable healthy excluded
           [insert_o4] fresh (MongoError "cursor failed")); reflexivity.
Defined.

Lemma startSync_without_elastic_witness :
  startSync cfg shop unreachable excluded [insert_o4] fresh =
    (if Option.debug cfg then Rejected (ConnectionError "invalid node url") else Resolved,
     {| ESclient := false; db := db fresh; es := es fresh; watcher := None;
        out := out fresh ++ new_Client
               :: (if Option.debug cfg
                   then [console_log [AStr "Debug: Failed to connect elastic"]]
                   else [console_log [AErr (ConnectionError "invalid node url")]]) |}).
Proof.
  apply (startSync_without_elastic cfg shop unreachable excluded [insert_o4] fresh
           (ConnectionError "invalid node url")); reflexivity.
Defined.

Lemma on_change_after_first_event_witness :
  on_change cfg healthy delete_nothing None watching =
    (Ok tt, snd (generateOperation cfg healthy delete_nothing watching)).
Proof.
  apply (on_change_after_first_event cfg healthy delete_nothing watching Resolved);
    [reflexivity | vm_compute; reflexivity | discriminate].
Defined.

Lemma on_change_with_error_witness :
  fst (on_change cfg healthy insert_o4 (Some (MongoError "cursor killed"))
         (snd (subscribe loaded))) = Ok tt /\
  watcher (snd (on_change cfg healthy insert_o4 (Some (MongoError "cursor killed"))
                  (snd (subscribe loaded)))) = Some (Rejected (MongoError "cursor killed")) /\
  es (snd (on_change cfg healthy insert_o4 (Some (MongoError "cursor killed"))
             (snd (subscribe loaded)))) =
    es (snd (generateOperation cfg healthy insert_o4 (snd (subscribe loaded)))).
Proof.
  apply (on_change_with_error cfg healthy insert_o4 (MongoError "cursor killed")
           (snd (subscribe loaded))).
  reflexivity.
Defined.

Lemma docker_snapshot_failure_witness :
  exists w,
    docker_main image_env one_certificate shop_down healthy empty_engine [] =
      Some (Rejected (MongoError "not authorized"), w) /\
    watcher w = None.
Proof.
  apply (docker_snapshot_failure shop_down healthy image_env one_certificate empty_engine []
           "yourMongoDBUrl" "yourElasticURL" (Option.mk "yourPrefix" true true)
           {| ca := "-----BEGIN CERTIFICATE-----"; rejectUnauthorized := false |}
           (MongoError "not authorized")); reflexivity.
Defined.


Lemma docker_flags_witness :
  Option.debug (Option.mk "yourPrefix" true true) = true /\
  Option.initialSync (Option.mk "yourPrefix" true true) = true /\
  rejectUnauthorized {| ca := "-----BEGIN CERTIFICATE-----"; rejectUnauthorized := false |} = false /\
  INDEX_PREFIX image_env = Some (Option.prefix (Option.mk "yourPrefix" true true)) /\
  MONGODB_URL_WITH_REPLICA_SET image_env = Some "yourMongoDBUrl" /\
  ELASTIC_URL image_env = Some "yourElasticURL".
Proof.
  apply (docker_flags image_env one_certificate "yourMongoDBUrl" "yourElasticURL"
           (Option.mk "yourPrefix" true true)
           {| ca := "-----BEGIN CERTIFICATE-----"; rejectUnauthorized := false |}).
  reflexivity.
Defined.
